(** * s3lib: the S3Path adapter of [src/s3lib/core.py]

    A shallow embedding of the class [S3Path] and of the parts of its
    base class [pathlib.PosixPath] that it calls (CPython 3.8 to 3.11, the
    versions that have [_from_parts]), together with a model of the
    object-store boundary that the methods talk to.

    Python [str] values are modelled by [string]; the only characters the
    code inspects are the ASCII characters "/", "\", "." and "_", so the
    results do not depend on how the other characters are encoded. *)

From Stdlib Require Import String Ascii List Bool Arith ZArith Lia.
Import ListNotations.

Local Open Scope string_scope.
Local Open Scope list_scope.

(** ** Exceptions and results *)

Inductive exn : Type :=
| IndexError       (* list index out of range *)
| AssertionError   (* a failed [assert] *)
| NoSuchKey        (* the store has no object at the key *)
| TypeError.       (* the caller used a handle for what it cannot do *)

Inductive result (A : Type) : Type :=
| Ok (a : A)
| Err (e : exn).

Arguments Ok {A} a.
Arguments Err {A} e.

Definition exn_eqb (e1 e2 : exn) : bool :=
  match e1, e2 with
  | IndexError, IndexError => true
  | AssertionError, AssertionError => true
  | NoSuchKey, NoSuchKey => true
  | TypeError, TypeError => true
  | _, _ => false
  end.

(** [l[i]] on a Python list. *)
Definition list_index {A : Type} (l : list A) (i : nat) : result A :=
  match nth_error l i with
  | Some a => Ok a
  | None => Err IndexError
  end.

(** [try: m except e: handler]. *)
Definition try_except {A : Type} (m : result A) (e : exn) (handler : result A)
  : result A :=
  match m with
  | Ok a => Ok a
  | Err e' => if exn_eqb e' e then handler else Err e'
  end.

(** ** The methods of Python's [str] that the code uses *)

Module PyStr.

(** [s.split(sep)] for a one-character separator. *)
Fixpoint split (sep : ascii) (s : string) : list string :=
  match s with
  | EmptyString => [EmptyString]
  | String c s' =>
      if Ascii.eqb c sep then EmptyString :: split sep s'
      else match split sep s' with
           | x :: xs => String c x :: xs
           | [] => [String c EmptyString]
           end
  end.

(** [s.split(sep, 1)]: at most one cut, at the first separator. *)
Fixpoint split1 (sep : ascii) (s : string) : list string :=
  match s with
  | EmptyString => [EmptyString]
  | String c s' =>
      if Ascii.eqb c sep then [EmptyString; s']
      else match split1 sep s' with
           | x :: xs => String c x :: xs
           | [] => [String c EmptyString]
           end
  end.

(** [sep.join(l)]. *)
Definition join (sep : string) (l : list string) : string :=
  String.concat sep l.

(** [s.lstrip(c)] for a one-character [c]. *)
Fixpoint lstrip (c : ascii) (s : string) : string :=
  match s with
  | EmptyString => EmptyString
  | String a s' => if Ascii.eqb a c then lstrip c s' else s
  end.

(** [s.rfind(c)]: the index of the last [c], or [-1]. *)
Fixpoint rfind (c : ascii) (s : string) : Z :=
  match s with
  | EmptyString => (-1)%Z
  | String a s' =>
      let r := rfind c s' in
      if (0 <=? r)%Z then (r + 1)%Z
      else if Ascii.eqb a c then 0%Z else (-1)%Z
  end.

Definition len (s : string) : Z := Z.of_nat (String.length s).

(** [s[i:]] and [s[:i]] for [0 <= i]. *)
Fixpoint drop (i : nat) (s : string) : string :=
  match i, s with
  | O, _ => s
  | S i', String _ s' => drop i' s'
  | S _, EmptyString => EmptyString
  end.

Fixpoint take (i : nat) (s : string) : string :=
  match i, s with
  | O, _ => EmptyString
  | S i', String c s' => String c (take i' s')
  | S _, EmptyString => EmptyString
  end.

Definition slice_from (i : Z) (s : string) : string := drop (Z.to_nat i) s.
Definition slice_to (i : Z) (s : string) : string := take (Z.to_nat i) s.

(** [s.startswith(p)]. *)
Definition startswith (p s : string) : bool := String.prefix p s.

(** [c in s] for a one-character [c]. *)
Fixpoint contains (c : ascii) (s : string) : bool :=
  match s with
  | EmptyString => false
  | String a s' => Ascii.eqb a c || contains c s'
  end.

(** [s.replace(old, new)]: every non-overlapping occurrence of [old],
    found from the left, becomes [new].  [skip] counts the characters of
    an occurrence that are still to be passed over. *)
Fixpoint replace_from (old new s : string) (skip : nat) : string :=
  match s with
  | EmptyString => EmptyString
  | String c s' =>
      match skip with
      | S k => replace_from old new s' k
      | O =>
          if String.prefix old s
          then new ++ replace_from old new s' (String.length old - 1)
          else String c (replace_from old new s' 0)
      end
  end.

(** With an empty [old], Python puts [new] before every character and
    at the end. *)
Fixpoint intersperse (new s : string) : string :=
  match s with
  | EmptyString => new
  | String c s' => new ++ String c (intersperse new s')
  end.

Definition replace (old new s : string) : string :=
  match old with
  | EmptyString => intersperse new s
  | String _ _ => replace_from old new s 0
  end.

End PyStr.

(** ** [pathlib.PurePosixPath]: the base class *)

Module PosixPath.

Definition sep : ascii := "/"%char.

(** A path object: [_drv], [_root] and [_parts].  When the path has a
    root, the root is also the first element of [_parts]. *)
Record path : Type := mk_path {
  _drv : string;
  _root : string;
  _parts : list string
}.

(** [_PosixFlavour.splitroot]: [(drv, root, rel)]. *)
Definition splitroot (part : string) : string * string * string :=
  match part with
  | String c _ =>
      if Ascii.eqb c sep then
        let stripped_part := PyStr.lstrip sep part in
        if Nat.eqb (String.length part - String.length stripped_part) 2
        then ("", "//", stripped_part)
        else ("", "/", stripped_part)
      else ("", "", part)
  | EmptyString => ("", "", part)
  end.

Definition keep_component (x : string) : bool :=
  negb (String.eqb x "") && negb (String.eqb x ".").

(** The components that one argument adds to [parsed], in the order in
    which the loop appends them (last component first). *)
Definition components_rev (rel : string) : list string :=
  if PyStr.contains sep rel
  then filter keep_component (rev (PyStr.split sep rel))
  else if keep_component rel then [rel] else [].

(** The loop of [_Flavour.parse_parts] over [reversed(parts)].  The
    POSIX flavour has no alternative separator, and its [splitroot]
    never returns a drive, so the inner search for a drive walks over
    the remaining arguments without effect and the loop stops at the
    first argument (from the end) that has a root. *)
Fixpoint parse_loop (it : list string) (parsed : list string)
  : string * string * list string :=
  match it with
  | [] => ("", "", parsed)
  | part :: it' =>
      if String.eqb part "" then parse_loop it' parsed
      else
        let '(drv, root, rel) := splitroot part in
        let parsed' := parsed ++ components_rev rel in
        if negb (String.eqb drv "") || negb (String.eqb root "")
        then (drv, root, parsed')
        else parse_loop it' parsed'
  end.

Definition parse_parts (parts : list string) : string * string * list string :=
  let '(drv, root, parsed) := parse_loop (rev parts) [] in
  let parsed :=
    if negb (String.eqb drv "") || negb (String.eqb root "")
    then parsed ++ [(drv ++ root)%string] else parsed in
  (drv, root, rev parsed).

(** [PurePath._from_parts(args)] with string arguments. *)
Definition _from_parts (args : list string) : path :=
  let '(drv, root, parts) := parse_parts args in
  mk_path drv root parts.

(** [PurePath._from_parsed_parts]. *)
Definition _from_parsed_parts (drv root : string) (parts : list string) : path :=
  mk_path drv root parts.

Definition has_anchor (p : path) : bool :=
  negb (String.eqb (_drv p) "") || negb (String.eqb (_root p) "").

(** [PurePath._format_parsed_parts]. *)
Definition _format_parsed_parts (drv root : string) (parts : list string) : string :=
  if negb (String.eqb drv "") || negb (String.eqb root "")
  then (drv ++ root ++ PyStr.join "/" (tl parts))%string
  else PyStr.join "/" parts.

(** [PurePath.__str__]. *)
Definition __str__ (p : path) : string :=
  let s := _format_parsed_parts (_drv p) (_root p) (_parts p) in
  if String.eqb s "" then "." else s.

(** [PurePath.name]. *)
Definition name (p : path) : string :=
  if Nat.eqb (length (_parts p)) (if has_anchor p then 1 else 0) then ""
  else last (_parts p) "".

(** [PurePath.suffix]. *)
Definition suffix (p : path) : string :=
  let name := name p in
  let i := PyStr.rfind "."%char name in
  if (0 <? i)%Z && (i <? PyStr.len name - 1)%Z
  then PyStr.slice_from i name
  else "".

(** [PurePath.stem]. *)
Definition stem (p : path) : string :=
  let name := name p in
  let i := PyStr.rfind "."%char name in
  if (0 <? i)%Z && (i <? PyStr.len name - 1)%Z
  then PyStr.slice_to i name
  else name.

(** [PurePath.parent]. *)
Definition parent (p : path) : path :=
  if Nat.eqb (length (_parts p)) 1 && has_anchor p then p
  else _from_parsed_parts (_drv p) (_root p) (removelast (_parts p)).

(** [PurePath.parents]: [_PathParents] has
    [len(parts) - 1] entries when the path has an anchor and [len(parts)]
    otherwise; entry [idx] is built from [parts[:-idx - 1]]. *)
Definition parents_len (p : path) : nat :=
  if has_anchor p then length (_parts p) - 1 else length (_parts p).

Definition parents (p : path) : list path :=
  map (fun idx =>
         _from_parsed_parts (_drv p) (_root p)
           (firstn (length (_parts p) - idx - 1) (_parts p)))
      (seq 0 (parents_len p)).

(** [PurePath.__eq__]: the case-folded parts of the POSIX flavour are
    the parts themselves. *)
Definition eqb (p q : path) : bool :=
  if list_eq_dec String.string_dec (_parts p) (_parts q) then true else false.

End PosixPath.

(** ** The object store behind the SDK

    [boto3] is outside the repository.  The methods use five of its
    operations; each is modelled as one call on a store that holds, per
    bucket and key, the bytes of an object.  A listing returns the keys in
    the order in which the model holds them, and a bucket without objects
    lists as empty. *)

Module Store.

Definition bytes : Type := list Byte.byte.

Record object : Type := mk_object {
  o_bucket : string;
  o_key : string;
  o_body : bytes
}.

Definition store : Type := list object.

(** The calls that reach the store, as the trace records them. *)
Inductive call : Type :=
| GetObject (bucket key : string)
| ListObjects (bucket prefix : string)
| DeleteObjects (bucket prefix : string)
| Upload (bucket key : string) (body : bytes)
| CopyObject (src_bucket src_key dst_bucket dst_key : string).

Definition is_delete (c : call) : bool :=
  match c with DeleteObjects _ _ => true | _ => false end.

Definition is_listing (c : call) : bool :=
  match c with ListObjects _ _ => true | _ => false end.

Definition at_key (bucket key : string) (o : object) : bool :=
  String.eqb (o_bucket o) bucket && String.eqb (o_key o) key.

Definition under (bucket prefix : string) (o : object) : bool :=
  String.eqb (o_bucket o) bucket && String.prefix prefix (o_key o).

Definition lookup (st : store) (bucket key : string) : option bytes :=
  option_map o_body (find (at_key bucket key) st).

Definition keys_under (st : store) (bucket prefix : string) : list string :=
  map o_key (filter (under bucket prefix) st).

Definition remove_under (st : store) (bucket prefix : string) : store :=
  filter (fun o => negb (under bucket prefix o)) st.

Definition put (st : store) (bucket key : string) (body : bytes) : store :=
  filter (fun o => negb (at_key bucket key o)) st ++ [mk_object bucket key body].

(** What running a method gives: its result or exception, the store it
    leaves, and the calls it made, in order. *)
Record outcome (A : Type) : Type := mk_outcome {
  res : result A;
  final : store;
  trace : list call
}.

Arguments mk_outcome {A} res final trace.
Arguments res {A} o.
Arguments final {A} o.
Arguments trace {A} o.

Definition M (A : Type) : Type := store -> outcome A.

Definition ret {A : Type} (a : A) : M A :=
  fun st => mk_outcome (Ok a) st [].

Definition raise {A : Type} (e : exn) : M A :=
  fun st => mk_outcome (Err e) st [].

Definition bind {A B : Type} (m : M A) (k : A -> M B) : M B :=
  fun st =>
    let o1 := m st in
    match res o1 with
    | Err e => mk_outcome (Err e) (final o1) (trace o1)
    | Ok a =>
        let o2 := k a (final o1) in
        mk_outcome (res o2) (final o2) (trace o1 ++ trace o2)
    end.

(** A pure computation that may raise. *)
Definition lift {A : Type} (r : result A) : M A :=
  match r with
  | Ok a => ret a
  | Err e => raise e
  end.

(** [assert b]. *)
Definition assert (b : bool) : M unit :=
  if b then ret tt else raise AssertionError.

(** [for x in l: body(x)]. *)
Fixpoint for_each {A : Type} (l : list A) (body : A -> M unit) : M unit :=
  match l with
  | [] => ret tt
  | x :: l' => bind (body x) (fun _ => for_each l' body)
  end.

(** [for x in l: yield body(x)], collected. *)
Fixpoint for_yield {A B : Type} (l : list A) (body : A -> M B) : M (list B) :=
  match l with
  | [] => ret []
  | x :: l' =>
      bind (body x) (fun y =>
      bind (for_yield l' body) (fun ys => ret (y :: ys)))
  end.

(** [get_object(Bucket, Key)["Body"]]. *)
Definition get_object (bucket key : string) : M bytes :=
  fun st =>
    mk_outcome
      (match lookup st bucket key with
       | Some body => Ok body
       | None => Err NoSuchKey
       end)
      st [GetObject bucket key].

(** [Bucket(bucket).objects.filter(Prefix=prefix)]. *)
Definition list_objects (bucket prefix : string) : M (list string) :=
  fun st => mk_outcome (Ok (keys_under st bucket prefix)) st
              [ListObjects bucket prefix].

(** [Bucket(bucket).objects.filter(Prefix=prefix).delete()]. *)
Definition delete_objects (bucket prefix : string) : M unit :=
  fun st => mk_outcome (Ok tt) (remove_under st bucket prefix)
              [DeleteObjects bucket prefix].

(** [upload_fileobj(file, bucket, key)] with the bytes read from the file. *)
Definition upload (bucket key : string) (body : bytes) : M unit :=
  fun st => mk_outcome (Ok tt) (put st bucket key body)
              [Upload bucket key body].

(** [meta.client.copy({"Bucket": sb, "Key": sk}, db, dk)]. *)
Definition copy_object (sb sk db dk : string) : M unit :=
  fun st =>
    match lookup st sb sk with
    | Some body => mk_outcome (Ok tt) (put st db dk body) [CopyObject sb sk db dk]
    | None => mk_outcome (Err NoSuchKey) st [CopyObject sb sk db dk]
    end.

End Store.

Import Store.

Notation "x <- m ;; k" := (bind m (fun x => k))
  (at level 61, m at next level, right associativity).
Notation "m ;; k" := (bind m (fun _ => k))
  (at level 61, right associativity).

(** ** File objects handed out by [open] *)

Module FileObj.

(** [io.BytesIO]: the buffer and the stream position. *)
Record bytesio : Type := mk_bytesio {
  buf : bytes;
  pos : nat
}.

Definition BytesIO : bytesio := mk_bytesio [] 0.

(** [file.write(data)]: pads with zero bytes up to the position, then
    overwrites and extends from there. *)
Definition write (f : bytesio) (data : bytes) : bytesio :=
  let padded := buf f ++ repeat Byte.x00 (pos f - length (buf f)) in
  mk_bytesio
    (firstn (pos f) padded ++ data ++ skipn (pos f + length data) padded)
    (pos f + length data).

(** [file.seek(n)]. *)
Definition seek (f : bytesio) (n : nat) : bytesio :=
  mk_bytesio (buf f) n.

(** [file.read()]: everything from the position on. *)
Definition read (f : bytesio) : bytes := skipn (pos f) (buf f).

(** What [open] yields: the body of the object, a binary buffer, or a
    UTF-8 stream writer over a binary buffer. *)
Inductive file_obj : Type :=
| StreamingBody (data : bytes)
| Binary (file : bytesio)
| StreamWriter (file : bytesio).

(** The buffer behind a handle opened for writing. *)
Definition buffer_of (f : file_obj) : bytesio :=
  match f with
  | StreamingBody _ => BytesIO
  | Binary file => file
  | StreamWriter file => file
  end.

(** What the block of a [with] statement does with the handle: it
    writes bytes to a binary buffer, ... *)
Definition write_bytes (data : bytes) (f : file_obj) : result (unit * file_obj) :=
  match f with
  | Binary file => Ok (tt, Binary (write file data))
  | _ => Err TypeError
  end.

(** ... writes text, encoded as UTF-8, to a stream writer, ... *)
Definition write_text (text : string) (f : file_obj) : result (unit * file_obj) :=
  match f with
  | StreamWriter file =>
      Ok (tt, StreamWriter (write file (list_byte_of_string text)))
  | _ => Err TypeError
  end.

(** ... or reads a body to its end. *)
Definition read_body (f : file_obj) : result (bytes * file_obj) :=
  match f with
  | StreamingBody data => Ok (data, StreamingBody [])
  | _ => Err TypeError
  end.

End FileObj.

Import FileObj.

(** ** The class [S3Path] *)

Import PosixPath.

(** [S3Path(args...)] with string arguments: [__new__] hands the arguments
    to [_from_parts]. *)
Definition S3Path (args : list string) : path := _from_parts args.

(** [S3Path(p)] with a path argument: [_parse_args] takes the parts of
    [p] as the arguments. *)
Definition S3Path_of (p : path) : path := _from_parts (_parts p).

(** [S3Path.bucket]. *)
Definition bucket (self : path) : result string :=
  list_index (PyStr.split1 "/" (PosixPath.__str__ self)) 0.

(** [S3Path.key]. *)
Definition key (self : path) : result string :=
  match
    try_except
      (list_index (PyStr.split1 "/" (PosixPath.__str__ self)) 1)
      IndexError
      (Ok "")
  with
  | Err e => Err e
  | Ok _key =>
      if String.eqb (suffix self) "" then Ok (_key ++ "/")%string else Ok _key
  end.

(** [S3Path.__str__]. *)
Definition __str__ (self : path) : string :=
  PyStr.replace "\" "/" ("s3://" ++ PosixPath.__str__ self).

(** [S3Path.__repr__]. *)
Definition __repr__ (self : path) : string :=
  "S3Path(" ++ __str__ self ++ ")".

(** [S3Path.parent]. *)
Definition parent (self : path) : path :=
  S3Path_of (PosixPath.parent self).

(** [S3Path.parents]. *)
Definition parents (self : path) : list path :=
  map S3Path_of (PosixPath.parents self).

(** [S3Path.iterdir], with the paths it yields collected in a list. *)
Definition iterdir (self : path) : M (list path) :=
  b <- lift (bucket self) ;;
  k <- lift (key self) ;;
  objs <- list_objects b k ;;
  for_yield objs (fun obj_key =>
    b' <- lift (bucket self) ;;
    ret (S3Path [b'; obj_key])).

(** [S3Path.rglob]. *)
Definition rglob (self : path) (pattern : option string) : M (list path) :=
  b <- lift (bucket self) ;;
  k <- lift (key self) ;;
  objs <- list_objects b k ;;
  for_yield objs (fun obj_key =>
    b' <- lift (bucket self) ;;
    ret (S3Path [b'; obj_key])).

(** [S3Path.mkdir] returns the constant [NotImplemented]. *)
Inductive py_const : Type := NotImplemented.

Definition mkdir (self : path) : M py_const := ret NotImplemented.

(** [S3Path.exists]. *)
Definition exists_ (self : path) : M bool :=
  paths <- iterdir (parent self) ;;
  ret (existsb (PosixPath.eqb self) (flat_map parents paths)).

(** [S3Path.is_file]. *)
Definition is_file (self : path) : M bool :=
  if String.eqb (suffix self) "" then ret false
  else
    paths <- iterdir (parent self) ;;
    ret (existsb (PosixPath.eqb self) paths).

(** [S3Path.unlink]. *)
Definition unlink (self : path) : M unit :=
  f <- is_file self ;;
  assert f ;;
  b <- lift (bucket self) ;;
  k <- lift (key self) ;;
  delete_objects b k.

(** [S3Path.rmdir]. *)
Definition rmdir (self : path) (rm_files : bool) : M unit :=
  f <- is_file self ;;
  assert (negb f) ;;
  e <- exists_ self ;;
  if negb e then ret tt
  else
    (if negb rm_files
     then
       paths <- iterdir self ;;
       for_each paths (fun path =>
         pf <- is_file path ;;
         assert (negb pf))
     else ret tt) ;;
    b <- lift (bucket self) ;;
    k <- lift (key self) ;;
    delete_objects b k.

(** [S3Path.copy]. *)
Definition copy (self dst : path) : M unit :=
  paths <- iterdir self ;;
  for_each paths (fun path =>
    if PyStr.startswith "_" (stem path) then ret tt
    else
      src_bucket <- lift (bucket path) ;;
      src_key <- lift (key path) ;;
      dst_bucket <- lift (bucket dst) ;;
      path_key <- lift (key path) ;;
      self_key <- lift (key self) ;;
      dst_key <- lift (key dst) ;;
      copy_object src_bucket src_key dst_bucket
        (PyStr.replace self_key dst_key path_key)).

(** [S3Path.open] is a context manager: [open_enter] is the generator up
    to its [yield], [open_exit] is the rest, which runs when the block of
    the [with] statement ends normally. *)
Definition mode_ok (mode : string) : bool :=
  String.eqb mode "rb" || String.eqb mode "w" || String.eqb mode "wb".

Definition open_enter (self : path) (mode : string) : M file_obj :=
  assert (mode_ok mode) ;;
  if String.eqb mode "rb" then
    b <- lift (bucket self) ;;
    k <- lift (key self) ;;
    body <- get_object b k ;;
    ret (StreamingBody body)
  else if String.eqb mode "wb" then
    ret (Binary BytesIO)
  else
    ret (StreamWriter BytesIO).

Definition open_exit (self : path) (mode : string) (f : file_obj) : M unit :=
  if String.eqb mode "rb" then ret tt
  else
    let file := seek (buffer_of f) 0 in
    b <- lift (bucket self) ;;
    k <- lift (key self) ;;
    upload b k (read file).

(** [with self.open(mode) as f: block(f)]: the block works on the handle
    and may raise; an exception in the block leaves the generator at its
    [yield], so nothing after it runs. *)
Definition with_open {A : Type} (self : path) (mode : string)
  (block : file_obj -> result (A * file_obj)) : M A :=
  f <- open_enter self mode ;;
  match block f with
  | Err e => raise e
  | Ok (a, f') =>
      open_exit self mode f' ;;
      ret a
  end.

(** ** Valid segment sequences

    A segment is a non-empty string other than "." that holds no "/"; a
    valid sequence has at least the bucket segment.  The host-style
    separator "\" is an ordinary character of a segment for the POSIX
    base class; [no_backslash] says that the segments are free of it. *)

Definition valid_segment (x : string) : bool :=
  negb (String.eqb x "") && negb (String.eqb x ".")
  && negb (PyStr.contains "/"%char x).

Definition no_backslash (s : list string) : bool :=
  forallb (fun x => negb (PyStr.contains "\"%char x)) s.

Definition valid_segments (s : list string) : bool :=
  match s with
  | [] => false
  | _ => forallb valid_segment s
  end.

(** The bucket and the key as plain strings: what the two accessors
    return, which the proofs below show they always do. *)
Definition bucket_of (self : path) : string :=
  match bucket self with Ok b => b | Err _ => "" end.

Definition key_of (self : path) : string :=
  match key self with Ok k => k | Err _ => "" end.

(** The key that the accessor derives from a valid segment sequence. *)
Definition key_of_segments (s : list string) : string :=
  (PyStr.join "/" (tl s)
   ++ if String.eqb (suffix (S3Path s)) "" then "/" else "")%string.

(** The listing that [iterdir] turns into paths. *)
Definition listed (self : path) (st : store) : list path :=
  map (fun obj_key => S3Path [bucket_of self; obj_key])
      (keys_under st (bucket_of self) (key_of self)).

(** The entries that [copy] passes over, and the call that it makes for
    an entry that it does not pass over. *)
Definition hidden (path : path) : bool := PyStr.startswith "_" (stem path).

Definition copy_call (self dst path : path) : call :=
  CopyObject (bucket_of path) (key_of path) (bucket_of dst)
    (PyStr.replace (key_of self) (key_of dst) (key_of path)).

(** The shape of the paths that the constructor builds: no drive; either
    no root and segments only, or the root "/" or "//" followed by
    segments. *)
Definition well_formed (p : path) : bool :=
  String.eqb (_drv p) ""
  && (if String.eqb (_root p) "" then forallb valid_segment (_parts p)
      else (String.eqb (_root p) "/" || String.eqb (_root p) "//")
           && match _parts p with
              | [] => false
              | r :: segs => String.eqb r (_root p) && forallb valid_segment segs
              end).

(** A block that writes the chunks one after the other. *)
Fixpoint write_chunks (chunks : list bytes) (f : file_obj)
  : result (unit * file_obj) :=
  match chunks with
  | [] => Ok (tt, f)
  | data :: chunks' =>
      match write_bytes data f with
      | Ok (_, f') => write_chunks chunks' f'
      | Err e => Err e
      end
  end.

(** * Properties *)

(** ** Strings *)

Section StringFacts.

Variable c : ascii.

Lemma split_not_nil (s : string) : PyStr.split c s <> [].
Proof.
  destruct s as [|a s]; simpl; [discriminate|].
  destruct (Ascii.eqb a c); [discriminate|].
  destruct (PyStr.split c s); discriminate.
Qed.

Lemma split1_not_nil (s : string) : PyStr.split1 c s <> [].
Proof.
  destruct s as [|a s]; simpl; [discriminate|].
  destruct (Ascii.eqb a c); [discriminate|].
  destruct (PyStr.split1 c s); discriminate.
Qed.

Lemma split_absent (x : string) :
  PyStr.contains c x = false -> PyStr.split c x = [x].
Proof.
  induction x as [|a x IH]; simpl; intros H; [reflexivity|].
  apply orb_false_iff in H as [Ha Hx].
  rewrite Ha, (IH Hx). reflexivity.
Qed.

Lemma split1_absent (x : string) :
  PyStr.contains c x = false -> PyStr.split1 c x = [x].
Proof.
  induction x as [|a x IH]; simpl; intros H; [reflexivity|].
  apply orb_false_iff in H as [Ha Hx].
  rewrite Ha, (IH Hx). reflexivity.
Qed.

Lemma split_app_sep (x r : string) :
  PyStr.contains c x = false ->
  PyStr.split c (x ++ String c r) = x :: PyStr.split c r.
Proof.
  induction x as [|a x IH]; simpl; intros H.
  - rewrite Ascii.eqb_refl. reflexivity.
  - apply orb_false_iff in H as [Ha Hx].
    rewrite Ha, (IH Hx). reflexivity.
Qed.

Lemma split1_app_sep (x r : string) :
  PyStr.contains c x = false ->
  PyStr.split1 c (x ++ String c r) = [x; r].
Proof.
  induction x as [|a x IH]; simpl; intros H.
  - rewrite Ascii.eqb_refl. reflexivity.
  - apply orb_false_iff in H as [Ha Hx].
    rewrite Ha, (IH Hx). reflexivity.
Qed.

Lemma contains_app (x y : string) :
  PyStr.contains c (x ++ y) = PyStr.contains c x || PyStr.contains c y.
Proof.
  induction x as [|a x IH]; simpl; [reflexivity|].
  rewrite IH. apply orb_assoc.
Qed.

End StringFacts.

Lemma join_cons2 (sep x y : string) (l : list string) :
  PyStr.join sep (x :: y :: l) = (x ++ sep ++ PyStr.join sep (y :: l))%string.
Proof. reflexivity. Qed.

Lemma append_nil_r (s : string) : (s ++ "")%string = s.
Proof. induction s as [|a s IH]; simpl; [|rewrite IH]; reflexivity. Qed.

Lemma append_assoc (x y z : string) :
  ((x ++ y) ++ z)%string = (x ++ (y ++ z))%string.
Proof. induction x as [|a x IH]; simpl; [|rewrite IH]; reflexivity. Qed.

Lemma append_eq_empty (x y : string) :
  (x ++ y)%string = "" -> x = "" /\ y = "".
Proof. destruct x; simpl; intros H; [auto | discriminate]. Qed.

(** Splitting the joined segments gives the segments back. *)
Lemma split_join (s : list string) :
  s <> [] ->
  forallb (fun x => negb (PyStr.contains "/"%char x)) s = true ->
  PyStr.split "/"%char (PyStr.join "/" s) = s.
Proof.
  induction s as [|x s IH]; intros Hne Hall; [congruence|].
  simpl in Hall. apply andb_true_iff in Hall as [Hx Hs].
  apply negb_true_iff in Hx.
  destruct s as [|y s].
  - simpl. apply split_absent, Hx.
  - rewrite join_cons2.
    change (x ++ "/" ++ PyStr.join "/" (y :: s))%string
      with (x ++ String "/"%char (PyStr.join "/" (y :: s)))%string.
    rewrite split_app_sep by exact Hx.
    rewrite IH; [reflexivity | discriminate | exact Hs].
Qed.

Lemma contains_join (s : list string) (x y : string) :
  PyStr.contains "/"%char (PyStr.join "/" (x :: y :: s)) = true.
Proof.
  rewrite join_cons2, contains_app. simpl. apply orb_true_r.
Qed.

(** Replacing a character that does not occur changes nothing. *)
Lemma replace_char_absent (a : ascii) (new s : string) :
  PyStr.contains a s = false ->
  PyStr.replace (String a "") new s = s.
Proof.
  unfold PyStr.replace.
  induction s as [|b s IH]; simpl; intros H; [reflexivity|].
  apply orb_false_iff in H as [Hb Hs].
  destruct (Ascii.ascii_dec a b) as [->|Hab].
  - rewrite Ascii.eqb_refl in Hb. discriminate.
  - rewrite (IH Hs). reflexivity.
Qed.

(** ** Parsing valid segment sequences *)

Section ValidSegment.

Variable x : string.
Hypothesis Hx : valid_segment x = true.

Lemma valid_segment_parts :
  String.eqb x "" = false /\ String.eqb x "." = false
  /\ PyStr.contains "/"%char x = false.
Proof.
  unfold valid_segment in Hx.
  repeat (apply andb_true_iff in Hx as [Hx ?]).
  repeat match goal with H : negb _ = true |- _ => apply negb_true_iff in H end.
  auto.
Qed.

Lemma valid_segment_not_empty : String.eqb x "" = false.
Proof. apply valid_segment_parts. Qed.

Lemma valid_segment_no_sep : PyStr.contains "/"%char x = false.
Proof. apply valid_segment_parts. Qed.

Lemma valid_segment_keep : keep_component x = true.
Proof.
  unfold keep_component.
  destruct valid_segment_parts as (-> & -> & _). reflexivity.
Qed.

Lemma valid_segment_splitroot : splitroot x = ("", "", x).
Proof.
  pose proof valid_segment_no_sep as H.
  unfold splitroot, sep. destruct x as [|a r]; [reflexivity|].
  simpl in H. apply orb_false_iff in H as [-> _]. reflexivity.
Qed.

Lemma valid_segment_components : components_rev x = [x].
Proof.
  unfold components_rev, sep.
  rewrite valid_segment_no_sep, valid_segment_keep. reflexivity.
Qed.

End ValidSegment.

Lemma parse_loop_valid (l parsed : list string) :
  forallb valid_segment l = true ->
  parse_loop l parsed = ("", "", parsed ++ l).
Proof.
  revert parsed. induction l as [|x l IH]; intros parsed H; simpl.
  - rewrite app_nil_r. reflexivity.
  - simpl in H. apply andb_true_iff in H as [Hx Hl].
    rewrite (valid_segment_not_empty x Hx), (valid_segment_splitroot x Hx).
    rewrite (valid_segment_components x Hx). simpl.
    rewrite (IH _ Hl), <- app_assoc. reflexivity.
Qed.

Lemma forallb_rev {A : Type} (f : A -> bool) (l : list A) :
  forallb f l = true -> forallb f (rev l) = true.
Proof.
  rewrite !forallb_forall. intros H a Ha. apply H, in_rev, Ha.
Qed.

Lemma parse_parts_valid (s : list string) :
  forallb valid_segment s = true -> parse_parts s = ("", "", s).
Proof.
  intros H. unfold parse_parts.
  rewrite (parse_loop_valid _ _ (forallb_rev _ _ H)). simpl.
  rewrite rev_involutive. reflexivity.
Qed.

Lemma valid_segments_forallb (s : list string) :
  valid_segments s = true -> forallb valid_segment s = true.
Proof. destruct s; [discriminate | exact (fun H => H)]. Qed.

(** A valid segment sequence is parsed into itself: the path has no root
    and its parts are the segments. *)
Lemma S3Path_valid (s : list string) :
  forallb valid_segment s = true -> S3Path s = mk_path "" "" s.
Proof.
  intros H. unfold S3Path, _from_parts. rewrite (parse_parts_valid s H).
  reflexivity.
Qed.

Lemma S3Path_of_valid (s : list string) :
  forallb valid_segment s = true ->
  S3Path_of (mk_path "" "" s) = mk_path "" "" s.
Proof. intros H. exact (S3Path_valid s H). Qed.

Lemma join_valid_not_empty (s : list string) :
  valid_segments s = true -> String.eqb (PyStr.join "/" s) "" = false.
Proof.
  destruct s as [|x s]; [discriminate|]. intros H.
  simpl in H. apply andb_true_iff in H as [Hx _].
  pose proof (valid_segment_not_empty x Hx) as Hne.
  destruct x as [|a r]; [discriminate|].
  destruct s; reflexivity.
Qed.

Lemma str_valid (s : list string) :
  valid_segments s = true ->
  PosixPath.__str__ (mk_path "" "" s) = PyStr.join "/" s.
Proof.
  intros H. unfold PosixPath.__str__, _format_parsed_parts. simpl.
  rewrite (join_valid_not_empty s H). reflexivity.
Qed.

Lemma split1_join (x : string) (s : list string) :
  PyStr.contains "/"%char x = false ->
  PyStr.split1 "/"%char (PyStr.join "/" (x :: s)) =
  match s with
  | [] => [x]
  | _ => [x; PyStr.join "/" s]
  end.
Proof.
  intros Hx. destruct s as [|y s].
  - apply split1_absent, Hx.
  - rewrite join_cons2.
    change (x ++ "/" ++ PyStr.join "/" (y :: s))%string
      with (x ++ String "/"%char (PyStr.join "/" (y :: s)))%string.
    apply split1_app_sep, Hx.
Qed.

(** ** The accessors never fail *)

Lemma bucket_total (p : path) : bucket p = Ok (bucket_of p).
Proof.
  unfold bucket_of, bucket, list_index.
  pose proof (split1_not_nil "/"%char (PosixPath.__str__ p)) as H.
  destruct (PyStr.split1 "/"%char (PosixPath.__str__ p)); [congruence|reflexivity].
Qed.

Lemma key_total (p : path) : key p = Ok (key_of p).
Proof.
  unfold key_of, key, try_except, list_index.
  destruct (nth_error _ 1); simpl; destruct (String.eqb (suffix p) ""); reflexivity.
Qed.

Lemma bucket_valid (s : list string) :
  valid_segments s = true -> bucket (S3Path s) = Ok (hd "" s).
Proof.
  intros H. rewrite (S3Path_valid s (valid_segments_forallb s H)).
  unfold bucket. rewrite (str_valid s H).
  destruct s as [|x s]; [discriminate|].
  simpl in H. apply andb_true_iff in H as [Hx _].
  rewrite (split1_join x s (valid_segment_no_sep x Hx)).
  destruct s; reflexivity.
Qed.

Lemma key_valid (s : list string) :
  valid_segments s = true -> key (S3Path s) = Ok (key_of_segments s).
Proof.
  intros H. unfold key_of_segments.
  rewrite (S3Path_valid s (valid_segments_forallb s H)).
  unfold key. rewrite (str_valid s H).
  destruct s as [|x s]; [discriminate|].
  simpl in H. apply andb_true_iff in H as [Hx _].
  rewrite (split1_join x s (valid_segment_no_sep x Hx)).
  destruct s; simpl;
    destruct (String.eqb (suffix _) ""); rewrite ?append_nil_r; reflexivity.
Qed.

(** ** Parsing a string of joined segments *)

Lemma filter_all {A : Type} (f : A -> bool) (l : list A) :
  forallb f l = true -> filter f l = l.
Proof.
  induction l as [|a l IH]; simpl; intros H; [reflexivity|].
  apply andb_true_iff in H as [-> Hl]. rewrite (IH Hl). reflexivity.
Qed.

Lemma forallb_impl {A : Type} (f g : A -> bool) (l : list A) :
  (forall a, f a = true -> g a = true) ->
  forallb f l = true -> forallb g l = true.
Proof.
  intros Hfg. rewrite !forallb_forall. intros H a Ha. apply Hfg, H, Ha.
Qed.

Lemma valid_no_sep (s : list string) :
  forallb valid_segment s = true ->
  forallb (fun x => negb (PyStr.contains "/"%char x)) s = true.
Proof.
  apply forallb_impl. intros a Ha.
  rewrite (valid_segment_no_sep a Ha). reflexivity.
Qed.

Lemma valid_keep (s : list string) :
  forallb valid_segment s = true -> forallb keep_component s = true.
Proof. apply forallb_impl, valid_segment_keep. Qed.

(** A string that does not start with the separator has no root. *)
Lemma splitroot_relative (a : ascii) (r : string) :
  Ascii.eqb a "/"%char = false ->
  splitroot (String a r) = ("", "", String a r).
Proof. intros H. unfold splitroot, sep. rewrite H. reflexivity. Qed.

Lemma parse_loop_relative (a : ascii) (r : string) (it parsed : list string) :
  Ascii.eqb a "/"%char = false ->
  parse_loop (String a r :: it) parsed =
  parse_loop it (parsed ++ components_rev (String a r)).
Proof.
  intros H. cbn [parse_loop].
  change (String.eqb (String a r) "") with false. cbv iota.
  rewrite (splitroot_relative a r H). reflexivity.
Qed.

Lemma join_valid_head (s : list string) :
  valid_segments s = true ->
  exists a r, PyStr.join "/" s = String a r /\ Ascii.eqb a "/"%char = false.
Proof.
  destruct s as [|x s]; [discriminate|]. intros H.
  simpl in H. apply andb_true_iff in H as [Hx _].
  pose proof (valid_segment_not_empty x Hx) as Hne.
  pose proof (valid_segment_no_sep x Hx) as Hsep.
  destruct x as [|a r]; [discriminate|].
  simpl in Hsep. apply orb_false_iff in Hsep as [Ha _].
  destruct s as [|y s].
  - exists a, r. auto.
  - rewrite join_cons2. simpl. eauto.
Qed.

Lemma components_rev_join (s : list string) :
  valid_segments s = true ->
  components_rev (PyStr.join "/" s) = rev s.
Proof.
  intros H. pose proof (valid_segments_forallb s H) as Hall.
  destruct s as [|x [|y s]]; [discriminate| |].
  - simpl in Hall. apply andb_true_iff in Hall as [Hx _].
    exact (valid_segment_components x Hx).
  - unfold components_rev, sep. rewrite contains_join.
    rewrite split_join; [|discriminate|exact (valid_no_sep _ Hall)].
    apply filter_all, forallb_rev, valid_keep, Hall.
Qed.

(** One argument that holds the joined segments parses like the
    segments given one by one. *)
Lemma parse_loop_join (s it parsed : list string) :
  valid_segments s = true ->
  parse_loop (PyStr.join "/" s :: it) parsed = parse_loop it (parsed ++ rev s).
Proof.
  intros H. destruct (join_valid_head s H) as (a & r & Hj & Ha).
  rewrite Hj, (parse_loop_relative a r it parsed Ha), <- Hj.
  rewrite (components_rev_join s H). reflexivity.
Qed.

Lemma S3Path_joined (pre s : list string) :
  forallb valid_segment pre = true ->
  valid_segments s = true ->
  S3Path (pre ++ [PyStr.join "/" s]) = mk_path "" "" (pre ++ s).
Proof.
  intros Hpre Hs. unfold S3Path, _from_parts, parse_parts.
  rewrite rev_app_distr. simpl rev. simpl app.
  rewrite (parse_loop_join s (rev pre) [] Hs).
  rewrite (parse_loop_valid _ _ (forallb_rev _ _ Hpre)). simpl.
  rewrite rev_app_distr, !rev_involutive. reflexivity.
Qed.

(** The scheme prefix parses into a segment of its own. *)
Lemma S3Path_with_scheme (s : list string) :
  valid_segments s = true ->
  S3Path [("s3://" ++ PyStr.join "/" s)%string] = mk_path "" "" ("s3:" :: s).
Proof.
  intros H. pose proof (valid_segments_forallb s H) as Hall.
  assert (Hj : ("s3://" ++ PyStr.join "/" s)%string
               = PyStr.join "/" ("s3:" :: "" :: s)).
  { destruct s as [|x s]; [discriminate|]. reflexivity. }
  rewrite Hj.
  unfold S3Path, _from_parts, parse_parts.
  change (rev [PyStr.join "/" ("s3:" :: "" :: s)])
    with [PyStr.join "/" ("s3:" :: "" :: s)].
  assert (Hc : components_rev (PyStr.join "/" ("s3:" :: "" :: s))
               = rev s ++ ["s3:"]).
  { unfold components_rev, sep. rewrite contains_join.
    rewrite split_join; [|discriminate|].
    - simpl rev. rewrite <- app_assoc, filter_app. simpl.
      rewrite (filter_all _ _ (forallb_rev _ _ (valid_keep _ Hall))).
      reflexivity.
    - simpl. exact (valid_no_sep _ Hall). }
  change (PyStr.join "/" ("s3:" :: "" :: s))
    with (String "s"%char ("3:/" ++ PyStr.join "/" ("" :: s))) at 1.
  rewrite parse_loop_relative by reflexivity.
  change (String "s"%char ("3:/" ++ PyStr.join "/" ("" :: s)))
    with (PyStr.join "/" ("s3:" :: "" :: s)).
  rewrite Hc. simpl.
  rewrite rev_app_distr, rev_involutive. reflexivity.
Qed.

Lemma contains_join_backslash (s : list string) :
  no_backslash s = true ->
  PyStr.contains "\"%char (PyStr.join "/" s) = false.
Proof.
  unfold no_backslash.
  induction s as [|x s IH]; intros H; [reflexivity|].
  simpl in H. apply andb_true_iff in H as [Hx Hs].
  apply negb_true_iff in Hx.
  destruct s as [|y s]; [exact Hx|].
  rewrite join_cons2, !contains_app, Hx, (IH Hs). reflexivity.
Qed.

Lemma str_S3Path_valid (s : list string) :
  valid_segments s = true ->
  no_backslash s = true ->
  __str__ (S3Path s) = ("s3://" ++ PyStr.join "/" s)%string.
Proof.
  intros H Hb. pose proof (valid_segments_forallb s H) as Hall.
  unfold __str__. rewrite (S3Path_valid s Hall), (str_valid s H).
  apply replace_char_absent. simpl.
  exact (contains_join_backslash s Hb).
Qed.

(** ** Running the queries

    The three queries [iterdir], [exists] and [is_file] end normally,
    leave the store as it is, and reach it through listings only. *)

Lemma for_yield_pure {A B : Type} (f : A -> B) (body : A -> M B)
  (l : list A) (st : store) :
  (forall x st', body x st' = mk_outcome (Ok (f x)) st' []) ->
  for_yield l body st = mk_outcome (Ok (map f l)) st [].
Proof.
  intros Hbody. induction l as [|x l IH]; [reflexivity|].
  simpl. unfold bind. rewrite Hbody. simpl. rewrite IH. reflexivity.
Qed.

Lemma iterdir_run (p : path) (st : store) :
  iterdir p st =
  mk_outcome (Ok (listed p st)) st [ListObjects (bucket_of p) (key_of p)].
Proof.
  unfold iterdir, bind. rewrite bucket_total, key_total. simpl.
  rewrite (for_yield_pure (fun obj_key => S3Path [bucket_of p; obj_key])).
  - reflexivity.
  - intros x st'. reflexivity.
Qed.

Lemma exists_run (p : path) (st : store) :
  exists_ p st =
  mk_outcome
    (Ok (existsb (PosixPath.eqb p) (flat_map parents (listed (parent p) st))))
    st [ListObjects (bucket_of (parent p)) (key_of (parent p))].
Proof.
  unfold exists_, bind. rewrite iterdir_run. reflexivity.
Qed.

Lemma is_file_run (p : path) (st : store) :
  is_file p st =
  if String.eqb (suffix p) "" then mk_outcome (Ok false) st []
  else mk_outcome (Ok (existsb (PosixPath.eqb p) (listed (parent p) st)))
         st [ListObjects (bucket_of (parent p)) (key_of (parent p))].
Proof.
  unfold is_file. destruct (String.eqb (suffix p) ""); [reflexivity|].
  unfold bind. rewrite iterdir_run. reflexivity.
Qed.

Lemma is_file_shape (p : path) (st : store) :
  exists b tr, is_file p st = mk_outcome (Ok b) st tr
               /\ forallb is_listing tr = true.
Proof.
  rewrite is_file_run.
  destruct (String.eqb (suffix p) ""); do 2 eexists; split; reflexivity.
Qed.

Lemma is_file_directory_like (p : path) (st : store) :
  suffix p = "" -> is_file p st = mk_outcome (Ok false) st [].
Proof. intros H. rewrite is_file_run, H. reflexivity. Qed.

Lemma listing_not_delete (tr : list call) :
  forallb is_listing tr = true ->
  forallb (fun c => negb (is_delete c)) tr = true.
Proof. apply forallb_impl. intros [] H; (discriminate || reflexivity). Qed.

(** The scan of [rmdir] raises at the first entry that is a file; up to
    there it has only listed, and the store is as it was. *)
Lemma scan_finds_file (paths : list path) (st : store) :
  (exists q, In q paths /\ res (is_file q st) = Ok true) ->
  let o := for_each paths (fun path => pf <- is_file path ;; assert (negb pf)) st in
  res o = Err AssertionError /\ final o = st
  /\ forallb is_listing (trace o) = true.
Proof.
  set (body := fun path : path => pf <- is_file path ;; assert (negb pf)).
  induction paths as [|x paths IH]; intros (q & Hin & Hq); [destruct Hin|].
  destruct (is_file_shape x st) as (b & tr & Hx & Htr).
  assert (Hbody : body x st =
                  mk_outcome (if b then Err AssertionError else Ok tt) st tr).
  { unfold body, bind. rewrite Hx. simpl.
    destruct b; simpl; rewrite app_nil_r; reflexivity. }
  cbv zeta. cbn [for_each]. unfold bind. rewrite Hbody.
  destruct b; cbn [res final trace]; [auto|].
  assert (Hex : exists q, In q paths /\ res (is_file q st) = Ok true).
  { destruct Hin as [<-|Hin]; [|eauto].
    rewrite Hx in Hq. discriminate. }
  destruct (IH Hex) as (Hres & Hfin & Hlist).
  rewrite forallb_app, Htr. auto.
Qed.

(** ** The store *)

Lemma find_none_filter (f : object -> bool) (st : store) :
  find f (filter (fun o => negb (f o)) st) = None.
Proof.
  induction st as [|o st IH]; [reflexivity|]. simpl.
  destruct (f o) eqn:Ho; simpl; [exact IH|]. rewrite Ho. exact IH.
Qed.

Lemma find_app_none {A : Type} (f : A -> bool) (l1 l2 : list A) :
  find f l1 = None -> find f (l1 ++ l2) = find f l2.
Proof.
  induction l1 as [|a l1 IH]; simpl; [reflexivity|].
  destruct (f a); [discriminate | exact IH].
Qed.

(** After an upload the key holds the uploaded bytes. *)
Lemma lookup_put (st : store) (b k : string) (body : bytes) :
  lookup (put st b k body) b k = Some body.
Proof.
  unfold lookup, put.
  rewrite find_app_none by apply find_none_filter.
  simpl. unfold at_key. simpl. rewrite !String.eqb_refl. reflexivity.
Qed.

Lemma keys_under_remove (st : store) (b k : string) :
  keys_under (remove_under st b k) b k = [].
Proof.
  unfold keys_under, remove_under.
  induction st as [|o st IH]; [reflexivity|]. simpl.
  destruct (under b k o) eqn:Ho; simpl; [exact IH|]. rewrite Ho. exact IH.
Qed.

Lemma in_remove_under (st : store) (b k : string) (o : object) :
  In o (remove_under st b k) <-> In o st /\ under b k o = false.
Proof.
  unfold remove_under. rewrite filter_In, negb_true_iff. reflexivity.
Qed.

(** A fresh buffer that was written once holds what was written. *)
Lemma read_written (data : bytes) :
  read (seek (write BytesIO data) 0) = data.
Proof.
  unfold read, seek, write, BytesIO. simpl.
  rewrite skipn_nil. apply app_nil_r.
Qed.

(** ** Parents of a valid path *)

Lemma forallb_firstn {A : Type} (f : A -> bool) (n : nat) (l : list A) :
  forallb f l = true -> forallb f (firstn n l) = true.
Proof.
  revert n. induction l as [|a l IH]; intros [|n] H; try reflexivity.
  simpl in *. apply andb_true_iff in H as [-> Hl]. exact (IH n Hl).
Qed.

Lemma parent_valid (l : list string) (x : string) :
  forallb valid_segment l = true ->
  parent (mk_path "" "" (l ++ [x])) = mk_path "" "" l.
Proof.
  intros H. unfold parent, PosixPath.parent, has_anchor. simpl.
  rewrite andb_false_r, removelast_last.
  exact (S3Path_of_valid l H).
Qed.

Lemma parents_valid (s : list string) :
  forallb valid_segment s = true ->
  parents (mk_path "" "" s) =
  map (fun idx => mk_path "" "" (firstn (length s - idx - 1) s))
      (seq 0 (length s)).
Proof.
  intros H. unfold parents, PosixPath.parents, parents_len, has_anchor.
  simpl. rewrite map_map. apply map_ext. intros idx.
  apply S3Path_of_valid, forallb_firstn, H.
Qed.

Lemma eqb_parts (p q : path) : PosixPath.eqb p q = true -> _parts p = _parts q.
Proof.
  unfold PosixPath.eqb. destruct (list_eq_dec _ _ _); [auto | discriminate].
Qed.

Lemma eqb_refl (p : path) : PosixPath.eqb p p = true.
Proof.
  unfold PosixPath.eqb. destruct (list_eq_dec _ _ _); [reflexivity | congruence].
Qed.

(** A path is none of its own parents: they all have fewer parts. *)
Lemma not_own_parent (s : list string) :
  forallb valid_segment s = true ->
  existsb (PosixPath.eqb (mk_path "" "" s)) (parents (mk_path "" "" s)) = false.
Proof.
  intros H. rewrite (parents_valid s H).
  destruct (existsb _ _) eqn:E; [|reflexivity].
  apply existsb_exists in E as (q & Hin & Hq).
  apply in_map_iff in Hin as (idx & <- & Hidx).
  apply in_seq in Hidx. apply eqb_parts in Hq. simpl in Hq.
  apply (f_equal (@length string)) in Hq.
  rewrite length_firstn in Hq. lia.
Qed.

Lemma forallb_app_l {A : Type} (f : A -> bool) (l1 l2 : list A) :
  forallb f (l1 ++ l2) = true -> forallb f l1 = true /\ forallb f l2 = true.
Proof. rewrite forallb_app. apply andb_true_iff. Qed.

(** * The claims *)

(** ** The string representation *)

(** C1, as stated, fails.  The only parser of the class is its
    constructor, and the constructor reads the scheme of the rendered
    string as a segment of its own: for the path "bucket/a/b.txt" the
    string is "s3://bucket/a/b.txt", and the path built from it has the
    parts "s3:", "bucket", "a", "b.txt", so it is not equal to the path
    and its bucket is "s3:".  And no other parser can do better on every
    sequence: rendering turns a backslash inside a segment into "/", so
    the two different paths of "bucket", "a\b" and of "bucket", "a", "b"
    have one and the same string. *)
Lemma str_roundtrip_counterexample :
  (valid_segments ["bucket"; "a"; "b.txt"] = true
   /\ __str__ (S3Path ["bucket"; "a"; "b.txt"]) = "s3://bucket/a/b.txt"
   /\ PosixPath.eqb (S3Path [__str__ (S3Path ["bucket"; "a"; "b.txt"])])
                     (S3Path ["bucket"; "a"; "b.txt"]) = false
   /\ bucket (S3Path [__str__ (S3Path ["bucket"; "a"; "b.txt"])]) = Ok "s3:")
  /\ (valid_segments ["bucket"; "a\b"] = true
      /\ valid_segments ["bucket"; "a"; "b"] = true
      /\ __str__ (S3Path ["bucket"; "a\b"]) = __str__ (S3Path ["bucket"; "a"; "b"])
      /\ PosixPath.eqb (S3Path ["bucket"; "a\b"]) (S3Path ["bucket"; "a"; "b"])
         = false).
Proof. repeat split; reflexivity. Qed.

(** C1, amended: for every valid segment sequence [s] whose segments
    hold no backslash, the rendered string of [S3Path s] is "s3://"
    followed by the segments joined with "/", and building a path from the
    part after the scheme gives a path equal to [S3Path s], with the same
    bucket and key; building a path from the whole string gives the path
    of "s3:" followed by [s]. *)
Theorem str_roundtrip_after_scheme (s : list string) :
  valid_segments s = true ->
  no_backslash s = true ->
  exists rest,
    __str__ (S3Path s) = ("s3://" ++ rest)%string
    /\ rest = PyStr.join "/" s
    /\ S3Path [rest] = S3Path s
    /\ PosixPath.eqb (S3Path [rest]) (S3Path s) = true
    /\ bucket (S3Path [rest]) = bucket (S3Path s)
    /\ key (S3Path [rest]) = key (S3Path s)
    /\ S3Path [__str__ (S3Path s)] = S3Path ("s3:" :: s).
Proof.
  intros H Hb. pose proof (valid_segments_forallb s H) as Hall.
  exists (PyStr.join "/" s).
  assert (Hrest : S3Path [PyStr.join "/" s] = S3Path s).
  { rewrite (S3Path_valid s Hall). exact (S3Path_joined [] s eq_refl H). }
  rewrite Hrest, (str_S3Path_valid s H Hb), (S3Path_with_scheme s H).
  repeat split; try reflexivity.
  - apply eqb_refl.
  - symmetry. apply S3Path_valid. simpl. exact Hall.
Qed.

Lemma str_roundtrip_after_scheme_witness :
  exists rest,
    __str__ (S3Path ["bucket"; "a"; "b.txt"]) = ("s3://" ++ rest)%string
    /\ rest = PyStr.join "/" ["bucket"; "a"; "b.txt"]
    /\ S3Path [rest] = S3Path ["bucket"; "a"; "b.txt"]
    /\ PosixPath.eqb (S3Path [rest]) (S3Path ["bucket"; "a"; "b.txt"]) = true
    /\ bucket (S3Path [rest]) = bucket (S3Path ["bucket"; "a"; "b.txt"])
    /\ key (S3Path [rest]) = key (S3Path ["bucket"; "a"; "b.txt"])
    /\ S3Path [__str__ (S3Path ["bucket"; "a"; "b.txt"])]
       = S3Path ["s3:"; "bucket"; "a"; "b.txt"].
Proof.
  apply (str_roundtrip_after_scheme ["bucket"; "a"; "b.txt"]); reflexivity.
Defined.

(** ** The accessors *)

(** C2: the bucket accessor returns the first segment and the key
    accessor returns the remaining segments joined by "/", with a "/"
    appended exactly when the path has no suffix; neither accessor fails,
    on any path, and neither reaches the store (they are functions of the
    path alone). *)
Theorem bucket_key_accessors :
  (forall p : path, exists b k, bucket p = Ok b /\ key p = Ok k)
  /\ (forall s : list string,
        valid_segments s = true ->
        bucket (S3Path s) = Ok (hd "" s)
        /\ key (S3Path s)
           = Ok (PyStr.join "/" (tl s)
                 ++ if String.eqb (suffix (S3Path s)) "" then "/" else "")%string).
Proof.
  split.
  - intros p. exists (bucket_of p), (key_of p).
    split; [apply bucket_total | apply key_total].
  - intros s H. split; [exact (bucket_valid s H) | exact (key_valid s H)].
Qed.

Lemma bucket_key_accessors_witness :
  (bucket (S3Path ["bucket"; "a"; "b.txt"]) = Ok "bucket"
   /\ key (S3Path ["bucket"; "a"; "b.txt"]) = Ok "a/b.txt")
  /\ key (S3Path ["bucket"; "a"]) = Ok "a/".
Proof.
  split.
  - exact (proj2 bucket_key_accessors ["bucket"; "a"; "b.txt"] eq_refl).
  - exact (proj2 (proj2 bucket_key_accessors ["bucket"; "a"] eq_refl)).
Defined.

(** C3, as stated, fails at the bucket root: the path of the single
    segment "bucket" has no suffix, so the accessor appends "/" to the
    empty remainder and the key is "/", not the empty string. *)
Lemma key_at_bucket_root_counterexample :
  valid_segments ["bucket"] = true
  /\ length ["bucket"] = 1
  /\ key (S3Path ["bucket"]) = Ok "/"
  /\ key (S3Path ["bucket"]) <> Ok "".
Proof. repeat split; try reflexivity. discriminate. Qed.

(** C3, amended: for every valid path the key is empty only at the
    bucket root.  If the key is the empty string, the path is the bucket
    segment alone; at every deeper path the key is not empty; and at the
    bucket root the key is the empty string when the bucket name has a
    suffix and "/" when it has none. *)
Theorem key_empty_only_at_root (s : list string) :
  valid_segments s = true ->
  (key (S3Path s) = Ok "" -> length s = 1)
  /\ (1 < length s -> exists k, key (S3Path s) = Ok k /\ k <> "")
  /\ (length s = 1 ->
      key (S3Path s) = Ok (if String.eqb (suffix (S3Path s)) "" then "/" else "")).
Proof.
  intros H.
  assert (Hdeep : 1 < length s -> exists k, key (S3Path s) = Ok k /\ k <> "").
  { intros Hlen. rewrite (key_valid s H). eexists. split; [reflexivity|].
    unfold key_of_segments. intros Heq.
    apply append_eq_empty in Heq as [Heq _].
    destruct s as [|x [|y t]]; simpl in Hlen; try lia.
    assert (Ht : valid_segments (y :: t) = true).
    { simpl in H. apply andb_true_iff in H as [_ H]. exact H. }
    pose proof (join_valid_not_empty _ Ht) as Hne.
    simpl tl in Heq. rewrite Heq in Hne. discriminate. }
  repeat split.
  - intros Hk. destruct s as [|x [|y t]]; [discriminate|reflexivity|].
    destruct Hdeep as (k & Hk' & Hne); [simpl; lia|]. congruence.
  - exact Hdeep.
  - intros Hlen. rewrite (key_valid s H). unfold key_of_segments.
    destruct s as [|x [|y t]]; try discriminate. reflexivity.
Qed.

Lemma key_empty_only_at_root_witness :
  (exists k, key (S3Path ["bucket"; "a"; "b.txt"]) = Ok k /\ k <> "")
  /\ key (S3Path ["my.bucket"]) = Ok "".
Proof.
  split.
  - apply (key_empty_only_at_root ["bucket"; "a"; "b.txt"] eq_refl).
    simpl. lia.
  - apply (key_empty_only_at_root ["my.bucket"] eq_refl). reflexivity.
Defined.

(** ** Deleting *)

(** C4, as stated, fails for a path with a suffix: [unlink] asks
    [is_file], and [is_file] lists the parent prefix.  On the empty store
    the path "bucket/dir/a.txt" is not a file, and [unlink] has listed the
    prefix "dir/" of the bucket by the time it raises. *)
Lemma unlink_contacts_store_counterexample :
  res (is_file (S3Path ["bucket"; "dir"; "a.txt"]) []) = Ok false
  /\ res (unlink (S3Path ["bucket"; "dir"; "a.txt"]) []) = Err AssertionError
  /\ trace (unlink (S3Path ["bucket"; "dir"; "a.txt"]) [])
     = [ListObjects "bucket" "dir/"]
  /\ trace (unlink (S3Path ["bucket"; "dir"; "a.txt"]) []) <> [].
Proof. repeat split; try reflexivity. discriminate. Qed.

(** C4, amended: for every path on which [is_file] returns false,
    [unlink] raises the assertion failure (the spec's PreconditionFailed)
    and issues no delete: the store is left as it was, and the only calls
    made are those of [is_file] itself, which are listings, and none at
    all when the path has no suffix. *)
Theorem unlink_non_file (p : path) (st : store) :
  res (is_file p st) = Ok false ->
  res (unlink p st) = Err AssertionError
  /\ final (unlink p st) = st
  /\ trace (unlink p st) = trace (is_file p st)
  /\ forallb is_listing (trace (unlink p st)) = true
  /\ forallb (fun c => negb (is_delete c)) (trace (unlink p st)) = true
  /\ (suffix p = "" -> trace (unlink p st) = []).
Proof.
  intros H. destruct (is_file_shape p st) as (b & tr & Hp & Htr).
  rewrite Hp in H. simpl in H. injection H as ->.
  assert (Hrun : unlink p st = mk_outcome (Err AssertionError) st tr).
  { unfold unlink, bind. rewrite Hp. simpl. rewrite app_nil_r. reflexivity. }
  rewrite Hrun, Hp. simpl. repeat split; auto.
  - apply listing_not_delete, Htr.
  - intros Hs. rewrite (is_file_directory_like p st Hs) in Hp.
    injection Hp as <-. reflexivity.
Qed.

Lemma unlink_non_file_witness :
  res (unlink (S3Path ["bucket"; "a"; "dir"]) [mk_object "bucket" "a/dir/x.txt" []])
  = Err AssertionError
  /\ final (unlink (S3Path ["bucket"; "a"; "dir"]) [mk_object "bucket" "a/dir/x.txt" []])
     = [mk_object "bucket" "a/dir/x.txt" []].
Proof.
  pose proof (unlink_non_file (S3Path ["bucket"; "a"; "dir"])
                [mk_object "bucket" "a/dir/x.txt" []] eq_refl) as H.
  split; [apply H | apply H].
Defined.

(** C5: a directory-like path is not a file, so it meets the
    precondition of [rmdir]; and on every path that is not a file: if the
    path exists, [rmdir] without [rm_files] raises the assertion failure
    (the spec's PreconditionFailed) when an entry of the directory is a
    file, with the store unchanged and no delete issued, while [rmdir]
    with [rm_files] ends normally and leaves no key under the prefix,
    keeping every other object; if the path does not exist, [rmdir] ends
    normally, changes nothing and issues no delete. *)
Theorem rmdir_contract (p : path) (st : store) :
  (suffix p = "" -> res (is_file p st) = Ok false)
  /\ (res (is_file p st) = Ok false ->
      (res (exists_ p st) = Ok true ->
       (forall paths q,
           res (iterdir p st) = Ok paths -> In q paths ->
           res (is_file q st) = Ok true ->
           res (rmdir p false st) = Err AssertionError
           /\ final (rmdir p false st) = st
           /\ forallb (fun c => negb (is_delete c)) (trace (rmdir p false st))
              = true)
       /\ res (rmdir p true st) = Ok tt
       /\ (forall b k, bucket p = Ok b -> key p = Ok k ->
           keys_under (final (rmdir p true st)) b k = []
           /\ forall o, In o (final (rmdir p true st))
                        <-> In o st /\ under b k o = false))
      /\ (res (exists_ p st) = Ok false ->
          forall rm_files,
            res (rmdir p rm_files st) = Ok tt
            /\ final (rmdir p rm_files st) = st
            /\ forallb (fun c => negb (is_delete c))
                 (trace (rmdir p rm_files st)) = true)).
Proof.
  split.
  { intros Hdir. rewrite (is_file_directory_like p st Hdir). reflexivity. }
  intros Hfile.
  destruct (is_file_shape p st) as (f & tr & Hp & Htr).
  rewrite Hp in Hfile. simpl in Hfile. injection Hfile as ->.
  apply listing_not_delete in Htr.
  split.
  - intros He. rewrite exists_run in He. simpl in He. injection He as He.
    assert (Hrm : rmdir p true st
                  = mk_outcome (Ok tt)
                      (remove_under st (bucket_of p) (key_of p))
                      (tr ++ [ListObjects (bucket_of (parent p)) (key_of (parent p));
                              DeleteObjects (bucket_of p) (key_of p)])).
    { unfold rmdir, bind. rewrite Hp. simpl.
      rewrite exists_run. simpl. rewrite He. simpl.
      rewrite bucket_total, key_total. reflexivity. }
    split; [|split].
    + intros paths q Hpaths Hin Hq.
      rewrite iterdir_run in Hpaths. simpl in Hpaths. injection Hpaths as <-.
      destruct (scan_finds_file (listed p st) st (ex_intro _ q (conj Hin Hq)))
        as (Hres & Hfin & Hscan).
      apply listing_not_delete in Hscan.
      unfold rmdir. unfold bind in *. rewrite Hp. simpl.
      rewrite exists_run. simpl. rewrite He. simpl.
      rewrite iterdir_run. simpl.
      rewrite Hres. simpl. rewrite Hfin. repeat split.
      rewrite forallb_app, Htr. simpl. exact Hscan.
    + rewrite Hrm. reflexivity.
    + intros b k Hb Hk.
      rewrite bucket_total in Hb. rewrite key_total in Hk.
      injection Hb as <-. injection Hk as <-.
      rewrite Hrm. simpl. split; [apply keys_under_remove|].
      intros o. apply in_remove_under.
  - intros He rm_files. rewrite exists_run in He. simpl in He. injection He as He.
    unfold rmdir, bind. rewrite Hp. simpl.
    rewrite exists_run. simpl. rewrite He. simpl. repeat split.
    rewrite forallb_app, Htr. reflexivity.
Qed.

Lemma rmdir_contract_witness :
  (res (rmdir (S3Path ["bucket"; "a"; "dir"]) false
          [mk_object "bucket" "a/dir/x.txt" []]) = Err AssertionError
   /\ final (rmdir (S3Path ["bucket"; "a"; "dir"]) false
               [mk_object "bucket" "a/dir/x.txt" []])
      = [mk_object "bucket" "a/dir/x.txt" []])
  /\ (res (rmdir (S3Path ["bucket"; "a"; "dir"]) true
             [mk_object "bucket" "a/dir/x.txt" []]) = Ok tt
      /\ keys_under (final (rmdir (S3Path ["bucket"; "a"; "dir"]) true
                              [mk_object "bucket" "a/dir/x.txt" []]))
           "bucket" "a/dir/" = [])
  /\ res (rmdir (S3Path ["bucket"; "a"; "dir"]) false []) = Ok tt.
Proof.
  destruct (rmdir_contract (S3Path ["bucket"; "a"; "dir"])
              [mk_object "bucket" "a/dir/x.txt" []]) as [Hdir Hpre].
  destruct (Hpre (Hdir eq_refl)) as [Hex _].
  destruct (Hex eq_refl) as (Hscan & Hrm & Hkeys).
  destruct (rmdir_contract (S3Path ["bucket"; "a"; "dir"]) [])
    as [Hdir' Hpre'].
  destruct (Hpre' (Hdir' eq_refl)) as [_ Hno].
  split; [|split].
  - destruct (Hscan [S3Path ["bucket"; "a/dir/x.txt"]]
                (S3Path ["bucket"; "a/dir/x.txt"]) eq_refl
                (or_introl eq_refl) eq_refl) as (H1 & H2 & _).
    split; assumption.
  - split; [exact Hrm|].
    exact (proj1 (Hkeys "bucket" "a/dir/" eq_refl eq_refl)).
  - exact (proj1 (Hno eq_refl false)).
Defined.

(** ** Copying *)

(** C6 at the input where the code departs from it: the source
    "bucket/a" has the key "a/", the one object under it has the key
    "a/a/x.txt", and the destination "bucket/d" has the key "d/".  The
    code builds the target key with [replace], which rewrites every "a/"
    of the key, so the copy goes to "d/d/x.txt" and not to "d/a/x.txt". *)
Theorem copy_replaces_every_occurrence (body : bytes) :
  trace (copy (S3Path ["bucket"; "a"]) (S3Path ["bucket"; "d"])
           [mk_object "bucket" "a/a/x.txt" body])
  = [ListObjects "bucket" "a/";
     CopyObject "bucket" "a/a/x.txt" "bucket" "d/d/x.txt"]
  /\ lookup (final (copy (S3Path ["bucket"; "a"]) (S3Path ["bucket"; "d"])
                      [mk_object "bucket" "a/a/x.txt" body]))
       "bucket" "d/a/x.txt" = None.
Proof. split; reflexivity. Qed.

(** The example of the spec: of the children "_hidden.txt" and
    "visible.txt" only the second is copied. *)
Lemma copy_skips_hidden_example (hidden visible : bytes) :
  trace (copy (S3Path ["bucket"; "src"]) (S3Path ["bucket"; "dst"])
           [mk_object "bucket" "src/_hidden.txt" hidden;
            mk_object "bucket" "src/visible.txt" visible])
  = [ListObjects "bucket" "src/";
     CopyObject "bucket" "src/visible.txt" "bucket" "dst/visible.txt"].
Proof. reflexivity. Qed.

(** ** Opening *)

(** C7: with any mode other than "rb", "wb" and "w", [open] raises the
    assertion failure (the spec's InvalidArgument) before it reaches the
    store or runs the block; with "rb" on a key that holds no object it
    raises the store's not-found error. *)
Theorem open_errors (p : path) (st : store) :
  (forall mode, mode <> "rb" -> mode <> "wb" -> mode <> "w" ->
     res (open_enter p mode st) = Err AssertionError
     /\ forall (A : Type) (block : file_obj -> result (A * file_obj)),
          res (with_open p mode block st) = Err AssertionError
          /\ final (with_open p mode block st) = st
          /\ trace (with_open p mode block st) = [])
  /\ (forall b k, bucket p = Ok b -> key p = Ok k -> lookup st b k = None ->
        res (open_enter p "rb" st) = Err NoSuchKey
        /\ forall (A : Type) (block : file_obj -> result (A * file_obj)),
             res (with_open p "rb" block st) = Err NoSuchKey
             /\ final (with_open p "rb" block st) = st).
Proof.
  split.
  - intros mode Hrb Hwb Hw.
    assert (Hmode : mode_ok mode = false).
    { unfold mode_ok. apply String.eqb_neq in Hrb, Hwb, Hw.
      rewrite Hrb, Hwb, Hw. reflexivity. }
    assert (Henter : open_enter p mode st = mk_outcome (Err AssertionError) st []).
    { unfold open_enter, bind. rewrite Hmode. reflexivity. }
    rewrite Henter. split; [reflexivity|]. intros A block.
    unfold with_open, bind. rewrite Henter. auto.
  - intros b k Hb Hk Hnone.
    assert (Henter : open_enter p "rb" st
                     = mk_outcome (Err NoSuchKey) st [GetObject b k]).
    { unfold open_enter, bind. simpl. rewrite Hb, Hk. simpl.
      unfold get_object. rewrite Hnone. reflexivity. }
    rewrite Henter. split; [reflexivity|]. intros A block.
    unfold with_open, bind. rewrite Henter. auto.
Qed.

Lemma open_errors_witness :
  res (open_enter (S3Path ["bucket"; "a"; "b.txt"]) "r" []) = Err AssertionError
  /\ res (open_enter (S3Path ["bucket"; "a"; "b.txt"]) "rb" []) = Err NoSuchKey.
Proof.
  destruct (open_errors (S3Path ["bucket"; "a"; "b.txt"]) []) as [Hmode Habsent].
  split.
  - apply (Hmode "r"); discriminate.
  - apply (Habsent "bucket" "a/b.txt"); reflexivity.
Defined.

(** C8: what is written through [open] in mode "wb" is what a later
    [open] in mode "rb" on the same path reads: the block writes [data] to
    the buffer, the exit uploads the whole buffer, and the read returns
    exactly [data], whatever the path and the store before. *)
Theorem write_then_read (p : path) (data : bytes) (st : store) :
  let written := with_open p "wb" (write_bytes data) st in
  res written = Ok tt
  /\ res (with_open p "rb" read_body (final written)) = Ok data.
Proof.
  assert (Hw : with_open p "wb" (write_bytes data) st
               = mk_outcome (Ok tt) (put st (bucket_of p) (key_of p) data)
                   [Upload (bucket_of p) (key_of p) data]).
  { unfold with_open, open_enter, open_exit, bind. simpl.
    rewrite bucket_total, key_total. simpl.
    rewrite read_written. reflexivity. }
  cbv zeta. rewrite Hw. split; [reflexivity|]. simpl.
  unfold with_open, open_enter, open_exit, bind. simpl.
  rewrite bucket_total, key_total. simpl.
  unfold get_object. rewrite lookup_put. reflexivity.
Qed.

(** ** Listing *)

(** C9: [rglob] yields the paths that [iterdir] yields, in the same
    order, with the same call to the store, whatever the pattern. *)
Theorem rglob_is_iterdir (p : path) (pattern : option string) (st : store) :
  rglob p pattern st = iterdir p st.
Proof. reflexivity. Qed.

(** C10: [is_file] can hold where [exists] does not.  Take a valid path
    with a suffix, at least one directory below the bucket, and a store in
    which the listing of the parent prefix is the object at the key of the
    path and nothing else: [is_file] finds the path in the listing, while
    [exists] looks for it among the parents of the listed path, which are
    all shorter than the path itself, so the path is never one of them. *)
Theorem is_file_without_exists
  (b : string) (dirs : list string) (name : string) (st : store) :
  let p := S3Path (b :: dirs ++ [name]) in
  valid_segments (b :: dirs ++ [name]) = true ->
  dirs <> [] ->
  suffix p <> "" ->
  keys_under st (bucket_of (parent p)) (key_of (parent p)) = [key_of p] ->
  res (is_file p st) = Ok true
  /\ res (exists_ p st) = Ok false
  /\ existsb (PosixPath.eqb p) (parents p) = false.
Proof.
  intros p Hv Hdirs Hsuf Hlist.
  pose proof (valid_segments_forallb _ Hv) as Hall.
  assert (Hp : p = mk_path "" "" (b :: dirs ++ [name])).
  { exact (S3Path_valid _ Hall). }
  change (b :: dirs ++ [name]) with ((b :: dirs) ++ [name]) in Hall.
  destruct (forallb_app_l _ _ _ Hall) as [Hpre Hname].
  assert (Hparent : parent p = S3Path (b :: dirs)).
  { rewrite Hp, (S3Path_valid _ Hpre). exact (parent_valid (b :: dirs) name Hpre). }
  assert (Hbucket : bucket_of (parent p) = b).
  { unfold bucket_of. rewrite Hparent, (bucket_valid (b :: dirs) Hpre).
    reflexivity. }
  assert (Hkey : key_of p = PyStr.join "/" (dirs ++ [name])).
  { unfold key_of, p. rewrite (key_valid _ Hv). unfold key_of_segments.
    fold p. apply String.eqb_neq in Hsuf. rewrite Hsuf.
    apply append_nil_r. }
  assert (Htail : valid_segments (dirs ++ [name]) = true).
  { simpl in Hpre. apply andb_true_iff in Hpre as [_ Hd].
    destruct dirs as [|d dirs]; [congruence|].
    simpl. simpl in Hd. apply andb_true_iff in Hd as [-> Hd].
    rewrite forallb_app, Hd, Hname. reflexivity. }
  assert (Hlisted : listed (parent p) st = [p]).
  { unfold listed. rewrite Hlist, Hbucket, Hkey. simpl.
    rewrite Hp. f_equal.
    apply (S3Path_joined [b] (dirs ++ [name])); [|exact Htail].
    simpl in Hpre. apply andb_true_iff in Hpre as [Hb _].
    simpl. rewrite Hb. reflexivity. }
  assert (Hown : existsb (PosixPath.eqb p) (parents p) = false).
  { rewrite Hp. exact (not_own_parent _ (valid_segments_forallb _ Hv)). }
  split; [|split].
  - rewrite is_file_run. apply String.eqb_neq in Hsuf. rewrite Hsuf.
    rewrite Hlisted. simpl. rewrite eqb_refl. reflexivity.
  - rewrite exists_run, Hlisted. simpl. rewrite app_nil_r, Hown. reflexivity.
  - exact Hown.
Qed.

Lemma is_file_without_exists_witness :
  res (is_file (S3Path ["bucket"; "dir"; "a.txt"])
         [mk_object "bucket" "dir/a.txt" []]) = Ok true
  /\ res (exists_ (S3Path ["bucket"; "dir"; "a.txt"])
            [mk_object "bucket" "dir/a.txt" []]) = Ok false.
Proof.
  destruct (is_file_without_exists "bucket" ["dir"] "a.txt"
              [mk_object "bucket" "dir/a.txt" []]) as (Hfile & Hexists & _).
  - reflexivity.
  - discriminate.
  - discriminate.
  - reflexivity.
  - split; assumption.
Defined.


(** * Further properties of the methods *)

(** ** Parent and parents *)

Lemma parent_S3Path (s : list string) (x : string) :
  valid_segments (s ++ [x]) = true ->
  parent (S3Path (s ++ [x])) = S3Path s.
Proof.
  intros H. apply valid_segments_forallb in H.
  destruct (forallb_app_l _ _ _ H) as [Hs _].
  rewrite (S3Path_valid _ H), (S3Path_valid _ Hs).
  exact (parent_valid s x Hs).
Qed.

(** X1: the parent of the path of a valid segment sequence is the path
    of the sequence without its last segment; the parent of a bucket root
    is the path of no segments. *)
Theorem parent_drops_last_segment (s : list string) (x : string) :
  valid_segments (s ++ [x]) = true ->
  parent (S3Path (s ++ [x])) = S3Path s.
Proof. exact (parent_S3Path s x). Qed.

Lemma parent_drops_last_segment_witness :
  parent (S3Path ["bucket"; "a"; "b.txt"]) = S3Path ["bucket"; "a"].
Proof.
  exact (parent_drops_last_segment ["bucket"; "a"] "b.txt" eq_refl).
Defined.

Lemma firstn_app_le {A : Type} (k : nat) (l1 l2 : list A) :
  k <= length l1 -> firstn k (l1 ++ l2) = firstn k l1.
Proof.
  intros Hk. rewrite firstn_app.
  replace (k - length l1) with 0 by lia. simpl. apply app_nil_r.
Qed.

(** X2: the parents of a valid path are its parent followed by the
    parents of the parent, so there are as many as the path has segments,
    from the immediate parent up to the path of no segments. *)
Theorem parents_unfold (s : list string) (x : string) :
  valid_segments (s ++ [x]) = true ->
  parents (S3Path (s ++ [x]))
  = parent (S3Path (s ++ [x])) :: parents (parent (S3Path (s ++ [x])))
  /\ length (parents (S3Path (s ++ [x]))) = length (s ++ [x]).
Proof.
  intros H. rewrite (parent_S3Path s x H).
  apply valid_segments_forallb in H.
  destruct (forallb_app_l _ _ _ H) as [Hs _].
  rewrite (S3Path_valid _ H), (S3Path_valid _ Hs).
  rewrite (parents_valid _ H), (parents_valid _ Hs).
  split; [|rewrite length_map, length_seq; reflexivity].
  rewrite length_app. simpl length.
  replace (length s + 1) with (S (length s)) by lia.
  cbn [seq map]. rewrite <- seq_shift, map_map.
  f_equal.
  - replace (S (length s) - 0 - 1) with (length s) by lia.
    rewrite firstn_app_le by lia. rewrite firstn_all. reflexivity.
  - apply map_ext_in. intros idx Hidx. apply in_seq in Hidx.
    replace (S (length s) - S idx - 1) with (length s - idx - 1) by lia.
    rewrite firstn_app_le by lia. reflexivity.
Qed.

Lemma parents_unfold_witness :
  parents (S3Path ["bucket"; "a"; "b.txt"])
  = [S3Path ["bucket"; "a"]; S3Path ["bucket"]; S3Path []].
Proof.
  exact (proj1 (parents_unfold ["bucket"; "a"] "b.txt" eq_refl)).
Defined.

(** ** The string representation *)

Lemma append_inj_l (p a b : string) :
  (p ++ a)%string = (p ++ b)%string -> a = b.
Proof.
  induction p as [|c p IH]; simpl; intros H; [exact H|].
  injection H as H. exact (IH H).
Qed.

(** X3: on valid segment sequences without backslashes the string
    representation loses nothing: two sequences with the same string are
    the same sequence. *)
Theorem str_injective (s1 s2 : list string) :
  valid_segments s1 = true -> no_backslash s1 = true ->
  valid_segments s2 = true -> no_backslash s2 = true ->
  __str__ (S3Path s1) = __str__ (S3Path s2) ->
  s1 = s2.
Proof.
  intros H1 B1 H2 B2 Heq.
  rewrite (str_S3Path_valid s1 H1 B1), (str_S3Path_valid s2 H2 B2) in Heq.
  apply append_inj_l in Heq.
  apply (f_equal (PyStr.split "/"%char)) in Heq.
  rewrite !split_join in Heq; try (apply valid_no_sep, valid_segments_forallb);
    try assumption.
  - destruct s2; [discriminate | discriminate].
  - destruct s1; [discriminate | discriminate].
Qed.

Lemma str_injective_witness :
  ["bucket"; "a"; "b.txt"] = ["bucket"; "a"; "b.txt"].
Proof.
  exact (str_injective ["bucket"; "a"; "b.txt"] ["bucket"; "a"; "b.txt"]
           eq_refl eq_refl eq_refl eq_refl eq_refl).
Defined.

Lemma replace_char_removes (a : ascii) (new s : string) :
  PyStr.contains a new = false ->
  PyStr.contains a (PyStr.replace (String a "") new s) = false.
Proof.
  intros Hnew. unfold PyStr.replace.
  induction s as [|c s IH]; [reflexivity|].
  cbn [PyStr.replace_from String.prefix String.length Nat.sub].
  destruct (Ascii.ascii_dec a c) as [->|Hac].
  - replace (String.prefix "" s) with true by (destruct s; reflexivity).
    rewrite contains_app, Hnew, IH. reflexivity.
  - cbn [PyStr.contains]. rewrite IH, orb_false_r.
    apply Ascii.eqb_neq. congruence.
Qed.

(** X4: the string of every path, valid or not, starts with the scheme
    "s3://" and holds no backslash. *)
Theorem str_scheme_and_separators (p : path) :
  String.prefix "s3://" (__str__ p) = true
  /\ PyStr.contains "\"%char (__str__ p) = false.
Proof.
  split.
  - unfold __str__, PyStr.replace.
    generalize (PosixPath.__str__ p). intros x.
    change (PyStr.replace_from "\" "/" ("s3://" ++ x) 0)
      with ("s3://" ++ PyStr.replace_from "\" "/" x 0)%string.
    destruct (PyStr.replace_from "\" "/" x 0); reflexivity.
  - unfold __str__. apply replace_char_removes. reflexivity.
Qed.

(** ** The queries *)

(** X5: [iterdir], [exists] and [is_file] are queries: on every
    path and store they end normally, leave the store as it is, and reach
    it through one listing at most; [iterdir] yields one path per key
    listed under the key of the path. *)
Theorem queries_read_only (p : path) (st : store) :
  (exists paths,
      res (iterdir p st) = Ok paths
      /\ length paths = length (keys_under st (bucket_of p) (key_of p)))
  /\ (exists e, res (exists_ p st) = Ok e)
  /\ (exists f, res (is_file p st) = Ok f)
  /\ final (iterdir p st) = st
  /\ final (exists_ p st) = st
  /\ final (is_file p st) = st
  /\ trace (iterdir p st) = [ListObjects (bucket_of p) (key_of p)]
  /\ trace (exists_ p st)
     = [ListObjects (bucket_of (parent p)) (key_of (parent p))]
  /\ (trace (is_file p st) = []
      \/ trace (is_file p st)
         = [ListObjects (bucket_of (parent p)) (key_of (parent p))]).
Proof.
  rewrite iterdir_run, exists_run, is_file_run.
  destruct (String.eqb (suffix p) ""); simpl;
    repeat split; eauto; eexists; (split; [reflexivity|]);
    unfold listed; apply length_map.
Qed.

(** X6: the path that [iterdir] builds from a bucket and the key of an
    object, given as segments joined by "/", is the path of the bucket
    followed by the segments.  Its bucket is the bucket; its key is the
    key of the object when the last segment has a suffix, and the key of
    the object followed by "/" when it has none. *)
Theorem listed_path_accessors (b : string) (t : list string) :
  valid_segment b = true ->
  valid_segments t = true ->
  S3Path [b; PyStr.join "/" t] = S3Path (b :: t)
  /\ bucket (S3Path [b; PyStr.join "/" t]) = Ok b
  /\ key (S3Path [b; PyStr.join "/" t])
     = Ok (PyStr.join "/" t
           ++ if String.eqb (suffix (S3Path [b; PyStr.join "/" t])) ""
              then "/" else "")%string.
Proof.
  intros Hb Ht.
  assert (Hv : valid_segments (b :: t) = true).
  { simpl. rewrite Hb. exact (valid_segments_forallb t Ht). }
  assert (Heq : S3Path [b; PyStr.join "/" t] = S3Path (b :: t)).
  { rewrite (S3Path_valid _ (valid_segments_forallb _ Hv)).
    apply (S3Path_joined [b] t); [|exact Ht]. simpl. rewrite Hb. reflexivity. }
  rewrite Heq. split; [reflexivity|]. split.
  - exact (bucket_valid _ Hv).
  - exact (key_valid _ Hv).
Qed.

Lemma listed_path_accessors_witness :
  key (S3Path ["bucket"; "src/sub/data"]) = Ok "src/sub/data/"
  /\ key (S3Path ["bucket"; "src/visible.txt"]) = Ok "src/visible.txt".
Proof.
  split.
  - exact (proj2 (proj2 (listed_path_accessors "bucket" ["src"; "sub"; "data"]
                           eq_refl eq_refl))).
  - exact (proj2 (proj2 (listed_path_accessors "bucket" ["src"; "visible.txt"]
                           eq_refl eq_refl))).
Defined.

Lemma unlink_run (p : path) (st : store) (f : bool) (tr : list call) :
  is_file p st = mk_outcome (Ok f) st tr ->
  unlink p st =
  if f
  then mk_outcome (Ok tt) (remove_under st (bucket_of p) (key_of p))
         (tr ++ [DeleteObjects (bucket_of p) (key_of p)])
  else mk_outcome (Err AssertionError) st tr.
Proof.
  intros Hp. unfold unlink, bind. rewrite Hp. destruct f; simpl.
  - rewrite bucket_total, key_total. reflexivity.
  - rewrite app_nil_r. reflexivity.
Qed.

Lemma rmdir_run_absent (p : path) (st : store) (tr : list call) (rm_files : bool) :
  is_file p st = mk_outcome (Ok false) st tr ->
  res (exists_ p st) = Ok false ->
  rmdir p rm_files st =
  mk_outcome (Ok tt) st
    (tr ++ [ListObjects (bucket_of (parent p)) (key_of (parent p))]).
Proof.
  intros Hp He. rewrite exists_run in He. simpl in He. injection He as He.
  unfold rmdir, bind. rewrite Hp. simpl.
  rewrite exists_run. simpl. rewrite He. reflexivity.
Qed.

Lemma nothing_listed (p : path) (st : store) :
  keys_under st (bucket_of (parent p)) (key_of (parent p)) = [] ->
  res (exists_ p st) = Ok false /\ res (is_file p st) = Ok false.
Proof.
  intros Hnone.
  assert (Hlisted : listed (parent p) st = []).
  { unfold listed. rewrite Hnone. reflexivity. }
  split.
  - rewrite exists_run, Hlisted. reflexivity.
  - rewrite is_file_run, Hlisted.
    destruct (String.eqb (suffix p) ""); reflexivity.
Qed.

(** X7: when the store lists nothing under the key of the parent, the
    path neither exists nor is a file, [unlink] raises the assertion
    failure, and [rmdir] returns without a delete, whatever [rm_files]
    is; the store stays as it is.  The empty store is the first case. *)
Theorem nothing_listed_under_parent (p : path) (st : store) :
  keys_under st (bucket_of (parent p)) (key_of (parent p)) = [] ->
  res (exists_ p st) = Ok false
  /\ res (is_file p st) = Ok false
  /\ res (unlink p st) = Err AssertionError
  /\ final (unlink p st) = st
  /\ forall rm_files,
       res (rmdir p rm_files st) = Ok tt
       /\ final (rmdir p rm_files st) = st
       /\ forallb (fun c => negb (is_delete c)) (trace (rmdir p rm_files st))
          = true.
Proof.
  intros Hnone. destruct (nothing_listed p st Hnone) as [He Hf].
  destruct (is_file_shape p st) as (f & tr & Hp & Htr).
  rewrite Hp in Hf. simpl in Hf. injection Hf as ->.
  rewrite (unlink_run p st false tr Hp), Hp.
  repeat split; try assumption;
    rewrite (rmdir_run_absent p st tr rm_files Hp He); try reflexivity.
  simpl. rewrite forallb_app, (listing_not_delete tr Htr). reflexivity.
Qed.

Lemma nothing_listed_under_parent_witness :
  res (exists_ (S3Path ["bucket"; "a"; "b.txt"]) []) = Ok false
  /\ res (is_file (S3Path ["bucket"; "a"; "b.txt"]) []) = Ok false.
Proof.
  destruct (nothing_listed_under_parent (S3Path ["bucket"; "a"; "b.txt"]) []
              eq_refl) as (He & Hf & _).
  split; assumption.
Defined.

Lemma filter_none {A : Type} (f : A -> bool) (l : list A) :
  (forall a, In a l -> f a = false) -> filter f l = [].
Proof.
  induction l as [|a l IH]; intros H; [reflexivity|]. simpl.
  rewrite (H a (or_introl eq_refl)). apply IH.
  intros a' Ha'. apply H. right. exact Ha'.
Qed.

(** X8: a path directly under a bucket whose name has no suffix never
    exists and is never a file, unless the bucket holds keys that start
    with "/": the parent is the bucket root, whose key is "/", so the
    listing that both queries rely on asks for the prefix "/". *)
Theorem first_level_never_exists (b x : string) (st : store) :
  valid_segment b = true ->
  valid_segment x = true ->
  suffix (S3Path [b]) = "" ->
  (forall o, In o st -> o_bucket o = b -> String.prefix "/" (o_key o) = false) ->
  key (parent (S3Path [b; x])) = Ok "/"
  /\ res (exists_ (S3Path [b; x]) st) = Ok false
  /\ res (is_file (S3Path [b; x]) st) = Ok false.
Proof.
  intros Hb Hx Hsuf Hkeys.
  assert (Hv : valid_segments ([b] ++ [x]) = true).
  { simpl. rewrite Hb, Hx. reflexivity. }
  assert (Hv1 : valid_segments [b] = true).
  { simpl. rewrite Hb. reflexivity. }
  pose proof (parent_S3Path [b] x Hv) as Hparent.
  simpl app in Hparent.
  assert (Hkey : key (S3Path [b]) = Ok "/").
  { rewrite (key_valid [b] Hv1). unfold key_of_segments.
    rewrite Hsuf. reflexivity. }
  assert (Hnone : keys_under st (bucket_of (parent (S3Path [b; x])))
                    (key_of (parent (S3Path [b; x]))) = []).
  { rewrite Hparent. unfold bucket_of, key_of.
    rewrite (bucket_valid [b] Hv1), Hkey. simpl hd.
    unfold keys_under. rewrite filter_none; [reflexivity|].
    intros o Ho. unfold under.
    destruct (String.eqb (o_bucket o) b) eqn:E; [|reflexivity].
    apply String.eqb_eq in E. simpl. exact (Hkeys o Ho E). }
  rewrite Hparent.
  destruct (nothing_listed _ st Hnone) as (He & Hf).
  auto.
Qed.

Lemma first_level_never_exists_witness :
  res (exists_ (S3Path ["bucket"; "dir"]) [mk_object "bucket" "dir/a.txt" []])
  = Ok false
  /\ res (is_file (S3Path ["bucket"; "a.txt"]) [mk_object "bucket" "a.txt" []])
     = Ok false.
Proof.
  split.
  - apply (first_level_never_exists "bucket" "dir"
             [mk_object "bucket" "dir/a.txt" []]); try reflexivity.
    intros o [<-|[]] _. reflexivity.
  - apply (first_level_never_exists "bucket" "a.txt"
             [mk_object "bucket" "a.txt" []]); try reflexivity.
    intros o [<-|[]] _. reflexivity.
Defined.

(** ** Deleting, when the precondition holds *)

Lemma prefix_refl (k : string) : String.prefix k k = true.
Proof.
  induction k as [|a k IH]; [reflexivity|]. simpl.
  destruct (Ascii.ascii_dec a a); [exact IH | congruence].
Qed.

Lemma at_key_under (b k : string) (o : object) :
  at_key b k o = true -> under b k o = true.
Proof.
  unfold at_key, under. intros H. apply andb_true_iff in H as [-> Hk].
  apply String.eqb_eq in Hk. rewrite Hk. apply prefix_refl.
Qed.

Lemma lookup_remove_under (st : store) (b k : string) :
  lookup (remove_under st b k) b k = None.
Proof.
  unfold lookup, remove_under.
  induction st as [|o st IH]; [reflexivity|]. simpl.
  destruct (under b k o) eqn:Hu; simpl; [exact IH|].
  destruct (at_key b k o) eqn:Ha; [|exact IH].
  rewrite (at_key_under b k o Ha) in Hu. discriminate.
Qed.

(** X9: on a path that is a file, [unlink] ends normally after one
    delete of the prefix that is the key of the path: the object at the
    key is gone, and so is every other object whose key starts with the
    key; the objects that are not under the prefix are kept. *)
Theorem unlink_file (p : path) (st : store) :
  res (is_file p st) = Ok true ->
  res (unlink p st) = Ok tt
  /\ lookup (final (unlink p st)) (bucket_of p) (key_of p) = None
  /\ keys_under (final (unlink p st)) (bucket_of p) (key_of p) = []
  /\ (forall o, In o (final (unlink p st))
                <-> In o st /\ under (bucket_of p) (key_of p) o = false)
  /\ trace (unlink p st)
     = trace (is_file p st) ++ [DeleteObjects (bucket_of p) (key_of p)].
Proof.
  intros Hf. destruct (is_file_shape p st) as (f & tr & Hp & _).
  rewrite Hp in Hf. simpl in Hf. injection Hf as ->.
  rewrite (unlink_run p st true tr Hp), Hp. simpl.
  split; [reflexivity|].
  split; [apply lookup_remove_under|].
  split; [apply keys_under_remove|].
  split; [intros o; apply in_remove_under | reflexivity].
Qed.

Lemma unlink_file_witness :
  res (unlink (S3Path ["bucket"; "dir"; "a.txt"])
         [mk_object "bucket" "dir/a.txt" []; mk_object "bucket" "dir/a.txt.bak" []])
  = Ok tt
  /\ keys_under
       (final (unlink (S3Path ["bucket"; "dir"; "a.txt"])
                 [mk_object "bucket" "dir/a.txt" [];
                  mk_object "bucket" "dir/a.txt.bak" []]))
       "bucket" "dir/a.txt" = [].
Proof.
  destruct (unlink_file (S3Path ["bucket"; "dir"; "a.txt"])
              [mk_object "bucket" "dir/a.txt" [];
               mk_object "bucket" "dir/a.txt.bak" []] eq_refl)
    as (Hres & _ & Hkeys & _).
  split; [exact Hres | exact Hkeys].
Defined.

(** The scan of [rmdir] ends normally when no entry is a file. *)
Lemma scan_no_file (paths : list path) (st : store) :
  (forall q, In q paths -> res (is_file q st) = Ok false) ->
  exists tr,
    for_each paths (fun path => pf <- is_file path ;; assert (negb pf)) st
    = mk_outcome (Ok tt) st tr
    /\ forallb is_listing tr = true.
Proof.
  set (body := fun path : path => pf <- is_file path ;; assert (negb pf)).
  induction paths as [|x paths IH]; intros Hall.
  - exists []. split; reflexivity.
  - destruct (is_file_shape x st) as (b & tr & Hx & Htr).
    pose proof (Hall x (or_introl eq_refl)) as Hb.
    rewrite Hx in Hb. simpl in Hb. injection Hb as ->.
    destruct IH as (tr' & Hrest & Htr').
    { intros q Hq. apply Hall. right. exact Hq. }
    assert (Hbody : body x st = mk_outcome (Ok tt) st tr).
    { unfold body, bind. rewrite Hx. simpl. rewrite app_nil_r. reflexivity. }
    exists (tr ++ tr'). split.
    + cbn [for_each]. unfold bind. rewrite Hbody. cbn [res final trace].
      rewrite Hrest. reflexivity.
    + rewrite forallb_app, Htr, Htr'. reflexivity.
Qed.

(** X10: on a path that is not a file and that exists, [rmdir] without
    [rm_files] ends normally when no entry of the directory is a file: it
    deletes the prefix, so that no key is left under it, and keeps the
    objects that are not under the prefix. *)
Theorem rmdir_without_files (p : path) (st : store) :
  res (is_file p st) = Ok false ->
  res (exists_ p st) = Ok true ->
  (forall paths q,
      res (iterdir p st) = Ok paths -> In q paths ->
      res (is_file q st) = Ok false) ->
  res (rmdir p false st) = Ok tt
  /\ keys_under (final (rmdir p false st)) (bucket_of p) (key_of p) = []
  /\ (forall o, In o (final (rmdir p false st))
                <-> In o st /\ under (bucket_of p) (key_of p) o = false).
Proof.
  intros Hf He Hall.
  destruct (is_file_shape p st) as (f & tr & Hp & _).
  rewrite Hp in Hf. simpl in Hf. injection Hf as ->.
  rewrite exists_run in He. simpl in He. injection He as He.
  destruct (scan_no_file (listed p st) st) as (tr' & Hscan & _).
  { intros q Hq. apply (Hall (listed p st)); [|exact Hq].
    rewrite iterdir_run. reflexivity. }
  assert (Hfin : res (rmdir p false st) = Ok tt
                 /\ final (rmdir p false st)
                    = remove_under st (bucket_of p) (key_of p)).
  { unfold rmdir. unfold bind in *. rewrite Hp. simpl.
    rewrite exists_run. simpl. rewrite He. simpl.
    rewrite iterdir_run. simpl. rewrite Hscan. simpl.
    rewrite bucket_total, key_total. simpl. split; reflexivity. }
  destruct Hfin as [Hres Hfin]. rewrite Hfin.
  split; [exact Hres|].
  split; [apply keys_under_remove|].
  intros o. apply in_remove_under.
Qed.

Lemma rmdir_without_files_witness :
  res (rmdir (S3Path ["bucket"; "a"; "dir"]) false
         [mk_object "bucket" "a/dir/sub/data" []]) = Ok tt
  /\ keys_under
       (final (rmdir (S3Path ["bucket"; "a"; "dir"]) false
                 [mk_object "bucket" "a/dir/sub/data" []]))
       "bucket" "a/dir/" = [].
Proof.
  destruct (rmdir_without_files (S3Path ["bucket"; "a"; "dir"])
              [mk_object "bucket" "a/dir/sub/data" []] eq_refl eq_refl)
    as (Hres & Hkeys & _).
  - intros paths q Hpaths Hq. injection Hpaths as <-.
    destruct Hq as [<-|[]]. reflexivity.
  - split; [exact Hres | exact Hkeys].
Defined.

(** ** Copying *)

Lemma for_each_cons_ok {A : Type} (body : A -> M unit) (x : A) (l : list A)
  (st st1 : store) (tr1 : list call) :
  body x st = mk_outcome (Ok tt) st1 tr1 ->
  for_each (x :: l) body st =
  mk_outcome (res (for_each l body st1)) (final (for_each l body st1))
    (tr1 ++ trace (for_each l body st1)).
Proof. intros H. cbn [for_each]. unfold bind. rewrite H. reflexivity. Qed.

Lemma for_each_cons_err {A : Type} (body : A -> M unit) (x : A) (l : list A)
  (st st1 : store) (tr1 : list call) (e : exn) :
  body x st = mk_outcome (Err e) st1 tr1 ->
  for_each (x :: l) body st = mk_outcome (Err e) st1 tr1.
Proof. intros H. cbn [for_each]. unfold bind. rewrite H. reflexivity. Qed.

Lemma at_key_eq (b k : string) (o : object) :
  at_key b k o = true -> o_bucket o = b /\ o_key o = k.
Proof.
  unfold at_key. intros H. apply andb_true_iff in H as [Hb Hk].
  apply String.eqb_eq in Hb, Hk. auto.
Qed.

Lemma find_app {A : Type} (f : A -> bool) (l1 l2 : list A) :
  find f (l1 ++ l2) =
  match find f l1 with Some a => Some a | None => find f l2 end.
Proof.
  induction l1 as [|a l1 IH]; simpl; [reflexivity|].
  destruct (f a); [reflexivity | exact IH].
Qed.

(** An upload leaves the objects at the other keys as they were. *)
Lemma lookup_put_other (st : store) (db dk : string) (body : bytes)
  (b k : string) :
  b <> db \/ k <> dk ->
  lookup (put st db dk body) b k = lookup st b k.
Proof.
  intros Hne. unfold lookup, put. rewrite find_app. f_equal.
  assert (Hnew : at_key b k (mk_object db dk body) = false).
  { destruct (at_key b k (mk_object db dk body)) eqn:E; [|reflexivity].
    apply at_key_eq in E as [E1 E2]. simpl in E1, E2.
    destruct Hne as [Hne|Hne]; congruence. }
  simpl. rewrite Hnew.
  induction st as [|o st IH]; [reflexivity|]. simpl.
  destruct (at_key db dk o) eqn:Ed; simpl.
  - destruct (at_key b k o) eqn:Eb; [|exact IH].
    apply at_key_eq in Ed as [E1 E2]. apply at_key_eq in Eb as [E3 E4].
    destruct Hne as [Hne|Hne]; congruence.
  - destruct (at_key b k o); [reflexivity | exact IH].
Qed.

Lemma lookup_put_keeps (st : store) (db dk : string) (body : bytes)
  (b k : string) :
  lookup st b k <> None -> lookup (put st db dk body) b k <> None.
Proof.
  intros H.
  destruct (String.string_dec b db) as [->|Hb];
    [destruct (String.string_dec k dk) as [->|Hk]|].
  - rewrite lookup_put. discriminate.
  - rewrite lookup_put_other; auto.
  - rewrite lookup_put_other; auto.
Qed.

Lemma firstn_S_cons {A : Type} (n : nat) (a : A) (l : list A) :
  a :: firstn n l = firstn (S n) (a :: l).
Proof. reflexivity. Qed.

(** The loop of [copy], from any store: the calls are the copies of the
    entries that are not hidden, in order, up to the first copy that
    fails; no key loses its object, and only the bucket of the
    destination changes. *)
Lemma copy_loop (self dst : path) (paths : list path) (st : store) :
  let o :=
    for_each paths (fun path =>
      if PyStr.startswith "_" (stem path) then ret tt
      else
        src_bucket <- lift (bucket path) ;;
        src_key <- lift (key path) ;;
        dst_bucket <- lift (bucket dst) ;;
        path_key <- lift (key path) ;;
        self_key <- lift (key self) ;;
        dst_key <- lift (key dst) ;;
        copy_object src_bucket src_key dst_bucket
          (PyStr.replace self_key dst_key path_key)) st in
  (exists n,
      trace o = firstn n (map (copy_call self dst)
                            (filter (fun q => negb (hidden q)) paths)))
  /\ (res o = Ok tt ->
      trace o = map (copy_call self dst)
                  (filter (fun q => negb (hidden q)) paths))
  /\ (forall b k, lookup st b k <> None -> lookup (final o) b k <> None)
  /\ (forall b k, b <> bucket_of dst -> lookup (final o) b k = lookup st b k).
Proof.
  set (body := fun path : path => _).
  revert st. induction paths as [|x paths IH]; intros st.
  - simpl. repeat split; auto. exists 0. reflexivity.
  - destruct (hidden x) eqn:Hh.
    + assert (Hbody : body x st = mk_outcome (Ok tt) st []).
      { unfold body. unfold hidden in Hh. rewrite Hh. reflexivity. }
      cbv zeta. rewrite (for_each_cons_ok body x paths st st [] Hbody).
      cbn [res final trace filter app]. rewrite Hh. cbn [negb].
      exact (IH st).
    + assert (Hbody : body x st
                      = copy_object (bucket_of x) (key_of x) (bucket_of dst)
                          (PyStr.replace (key_of self) (key_of dst) (key_of x))
                          st).
      { unfold body. unfold hidden in Hh. rewrite Hh.
        unfold bind. rewrite !bucket_total, !key_total. simpl.
        destruct (copy_object _ _ _ _ st) as [r f t]. simpl.
        destruct r; reflexivity. }
      cbv zeta. cbn [filter]. rewrite Hh. cbn [negb map].
      unfold copy_object in Hbody.
      destruct (lookup st (bucket_of x) (key_of x)) as [data|] eqn:Hl.
      * rewrite (for_each_cons_ok body x paths _ _ _ Hbody).
        cbn [res final trace app].
        destruct (IH (put st (bucket_of dst)
                        (PyStr.replace (key_of self) (key_of dst) (key_of x))
                        data)) as ((n & Hn) & Hok & Hkeep & Hother).
        split; [|split; [|split]].
        -- exists (S n). rewrite <- firstn_S_cons. f_equal. exact Hn.
        -- intros Hres. f_equal. exact (Hok Hres).
        -- intros b k Hb. apply Hkeep, lookup_put_keeps, Hb.
        -- intros b k Hb. rewrite (Hother b k Hb).
           apply lookup_put_other. left. exact Hb.
      * rewrite (for_each_cons_err body x paths _ _ _ _ Hbody).
        cbn [res final trace].
        split; [|split; [|split]]; auto.
        -- exists 1. reflexivity.
        -- discriminate.
Qed.

Lemma bind_ok {A B : Type} (m : M A) (k : A -> M B) (st st1 : store)
  (a : A) (tr1 : list call) :
  m st = mk_outcome (Ok a) st1 tr1 ->
  bind m k st =
  mk_outcome (res (k a st1)) (final (k a st1)) (tr1 ++ trace (k a st1)).
Proof. intros H. unfold bind. rewrite H. reflexivity. Qed.



(** X12: [copy] takes nothing away: whether it ends normally or not,
    every key that held an object still holds one, and the objects of the
    buckets other than the bucket of the destination are what they
    were. *)
Theorem copy_keeps_objects (self dst : path) (st : store) :
  (forall b k, lookup st b k <> None ->
               lookup (final (copy self dst st)) b k <> None)
  /\ (forall b k, b <> bucket_of dst ->
                  lookup (final (copy self dst st)) b k = lookup st b k).
Proof.
  destruct (copy_loop self dst (listed self st) st) as (_ & _ & Hkeep & Hother).
  unfold copy. rewrite (bind_ok _ _ _ _ _ _ (iterdir_run self st)).
  cbn [res final trace]. split; assumption.
Qed.

Lemma copy_keeps_objects_witness :
  lookup (final (copy (S3Path ["bucket"; "src"]) (S3Path ["other"; "dst"])
                   [mk_object "bucket" "src/visible.txt" []]))
    "bucket" "src/visible.txt" <> None.
Proof.
  apply (copy_keeps_objects (S3Path ["bucket"; "src"]) (S3Path ["other"; "dst"])
           [mk_object "bucket" "src/visible.txt" []]).
  discriminate.
Defined.

(** ** Opening *)

Lemma open_enter_write (p : path) (mode : string) (st : store) :
  mode = "wb" \/ mode = "w" ->
  open_enter p mode st
  = mk_outcome (Ok (if String.eqb mode "wb" then Binary BytesIO
                    else StreamWriter BytesIO)) st [].
Proof. intros [-> | ->]; reflexivity. Qed.

Lemma open_exit_write (p : path) (mode : string) (f : file_obj) (st : store) :
  mode = "wb" \/ mode = "w" ->
  open_exit p mode f st
  = mk_outcome (Ok tt)
      (put st (bucket_of p) (key_of p) (read (seek (buffer_of f) 0)))
      [Upload (bucket_of p) (key_of p) (read (seek (buffer_of f) 0))].
Proof.
  intros Hm. unfold open_exit, bind.
  replace (String.eqb mode "rb") with false by (destruct Hm as [-> | ->]; reflexivity).
  rewrite bucket_total, key_total. reflexivity.
Qed.

Lemma with_open_write {A : Type} (p : path) (mode : string)
  (block : file_obj -> result (A * file_obj)) (st : store) :
  mode = "wb" \/ mode = "w" ->
  with_open p mode block st =
  match block (if String.eqb mode "wb" then Binary BytesIO
               else StreamWriter BytesIO) with
  | Err e => mk_outcome (Err e) st []
  | Ok (a, f') =>
      mk_outcome (Ok a)
        (put st (bucket_of p) (key_of p) (read (seek (buffer_of f') 0)))
        [Upload (bucket_of p) (key_of p) (read (seek (buffer_of f') 0))]
  end.
Proof.
  intros Hm. unfold with_open.
  rewrite (bind_ok _ _ _ _ _ _ (open_enter_write p mode st Hm)).
  destruct (block _) as [[a f']|e]; [|reflexivity].
  rewrite (bind_ok _ _ _ _ _ _ (open_exit_write p mode f' st Hm)).
  reflexivity.
Qed.

Lemma with_open_read {A : Type} (p : path)
  (block : file_obj -> result (A * file_obj)) (st : store) :
  with_open p "rb" block st =
  match lookup st (bucket_of p) (key_of p) with
  | None => mk_outcome (Err NoSuchKey) st [GetObject (bucket_of p) (key_of p)]
  | Some body =>
      mk_outcome
        (match block (StreamingBody body) with
         | Ok (a, _) => Ok a
         | Err e => Err e
         end)
        st [GetObject (bucket_of p) (key_of p)]
  end.
Proof.
  unfold with_open, open_enter, open_exit, bind. simpl.
  rewrite bucket_total, key_total. simpl. unfold get_object.
  destruct (lookup st (bucket_of p) (key_of p)) as [body|]; simpl; [|reflexivity].
  destruct (block (StreamingBody body)) as [[a f']|e]; reflexivity.
Qed.

(** X13: an exception in the block of a [with] statement over [open]
    in a writing mode reaches the caller, and nothing is uploaded: the
    store stays as it is and no call is made. *)
Theorem open_block_exception_skips_upload {A : Type} (p : path) (mode : string)
  (block : file_obj -> result (A * file_obj)) (e : exn) (st : store) :
  mode = "wb" \/ mode = "w" ->
  (forall f, block f = Err e) ->
  res (with_open p mode block st) = Err e
  /\ final (with_open p mode block st) = st
  /\ trace (with_open p mode block st) = [].
Proof.
  intros Hm Hblock. rewrite (with_open_write p mode block st Hm), Hblock.
  repeat split.
Qed.

Lemma open_block_exception_skips_upload_witness :
  final (with_open (S3Path ["bucket"; "a"; "b.txt"]) "wb"
           (fun _ : file_obj => @Err (unit * file_obj) TypeError)
           [mk_object "bucket" "a/b.txt" []])
  = [mk_object "bucket" "a/b.txt" []].
Proof.
  apply (open_block_exception_skips_upload (S3Path ["bucket"; "a"; "b.txt"]) "wb"
           (fun _ => Err TypeError) TypeError [mk_object "bucket" "a/b.txt" []]).
  - left. reflexivity.
  - reflexivity.
Defined.

(** X14: writing through [open] in mode "wb" makes one call, the upload
    of the written bytes to the key of the path, and leaves the object at
    every other key of the store as it was. *)
Theorem write_touches_one_key (p : path) (data : bytes) (st : store) :
  trace (with_open p "wb" (write_bytes data) st)
  = [Upload (bucket_of p) (key_of p) data]
  /\ forall b k, b <> bucket_of p \/ k <> key_of p ->
       lookup (final (with_open p "wb" (write_bytes data) st)) b k
       = lookup st b k.
Proof.
  rewrite (with_open_write p "wb" (write_bytes data) st (or_introl eq_refl)).
  simpl. rewrite read_written. split; [reflexivity|].
  intros b k Hne. apply lookup_put_other, Hne.
Qed.

Lemma write_touches_one_key_witness :
  lookup (final (with_open (S3Path ["bucket"; "a"; "b.txt"]) "wb"
                   (write_bytes [Byte.x01])
                   [mk_object "bucket" "a/c.txt" [Byte.x02]]))
    "bucket" "a/c.txt"
  = Some [Byte.x02].
Proof.
  apply (proj2 (write_touches_one_key (S3Path ["bucket"; "a"; "b.txt"])
                  [Byte.x01] [mk_object "bucket" "a/c.txt" [Byte.x02]])).
  right. discriminate.
Defined.

(** X15: text written through [open] in mode "w" is stored as its UTF-8
    bytes: a later [open] in mode "rb" on the same path reads them. *)
Theorem write_text_then_read (p : path) (text : string) (st : store) :
  let written := with_open p "w" (write_text text) st in
  res written = Ok tt
  /\ res (with_open p "rb" read_body (final written))
     = Ok (list_byte_of_string text).
Proof.
  cbv zeta.
  rewrite (with_open_write p "w" (write_text text) st (or_intror eq_refl)).
  simpl. rewrite read_written. split; [reflexivity|].
  rewrite with_open_read, lookup_put. reflexivity.
Qed.

(** X16: reading through [open] in mode "rb" where the key holds an
    object gives the bytes of the object with one call, the get, and
    leaves the store as it is. *)
Theorem read_existing (p : path) (body : bytes) (st : store) :
  lookup st (bucket_of p) (key_of p) = Some body ->
  res (with_open p "rb" read_body st) = Ok body
  /\ final (with_open p "rb" read_body st) = st
  /\ trace (with_open p "rb" read_body st)
     = [GetObject (bucket_of p) (key_of p)].
Proof.
  intros H. rewrite with_open_read, H. repeat split.
Qed.

Lemma read_existing_witness :
  res (with_open (S3Path ["bucket"; "a"; "b.txt"]) "rb" read_body
         [mk_object "bucket" "a/b.txt" [Byte.x01]]) = Ok [Byte.x01].
Proof.
  apply (read_existing (S3Path ["bucket"; "a"; "b.txt"]) [Byte.x01]
           [mk_object "bucket" "a/b.txt" [Byte.x01]] eq_refl).
Defined.

Lemma write_at_end (file : bytesio) (data : bytes) :
  pos file = length (buf file) ->
  write file data
  = mk_bytesio (buf file ++ data) (length (buf file ++ data)).
Proof.
  intros Hpos. unfold write. rewrite Hpos, Nat.sub_diag. simpl repeat.
  rewrite app_nil_r, firstn_all, length_app.
  rewrite skipn_all2 by lia. rewrite app_nil_r. reflexivity.
Qed.

Lemma write_chunks_binary (chunks : list bytes) (file : bytesio) :
  pos file = length (buf file) ->
  write_chunks chunks (Binary file)
  = Ok (tt, Binary (mk_bytesio (buf file ++ concat chunks)
                      (length (buf file ++ concat chunks)))).
Proof.
  revert file. induction chunks as [|data chunks IH]; intros file Hpos.
  - simpl. rewrite app_nil_r, <- Hpos. destruct file. reflexivity.
  - cbn [write_chunks write_bytes concat].
    rewrite (write_at_end file data Hpos), IH by reflexivity.
    cbn [buf]. rewrite <- app_assoc. reflexivity.
Qed.

(** X17: the chunks that a block writes one after the other to the
    buffer of [open] in mode "wb" are uploaded as one object, in the order
    written: a later read of the path gives their concatenation. *)
Theorem write_chunks_then_read (p : path) (chunks : list bytes) (st : store) :
  let written := with_open p "wb" (write_chunks chunks) st in
  res written = Ok tt
  /\ trace written = [Upload (bucket_of p) (key_of p) (concat chunks)]
  /\ res (with_open p "rb" read_body (final written)) = Ok (concat chunks).
Proof.
  cbv zeta.
  rewrite (with_open_write p "wb" (write_chunks chunks) st (or_introl eq_refl)).
  cbn [String.eqb Ascii.eqb Bool.eqb]. 
  rewrite (write_chunks_binary chunks BytesIO eq_refl).
  cbn [buf BytesIO app buffer_of seek read pos skipn res final trace].
  repeat split.
  rewrite with_open_read, lookup_put. reflexivity.
Qed.

(** ** The paths that the constructor builds *)

Lemma split_pieces_no_sep (c : ascii) (s : string) :
  forallb (fun x => negb (PyStr.contains c x)) (PyStr.split c s) = true.
Proof.
  induction s as [|a s IH]; [reflexivity|]. simpl.
  destruct (Ascii.eqb a c) eqn:Ha; [exact IH|].
  destruct (PyStr.split c s) as [|x xs]; simpl in *.
  - rewrite Ha. reflexivity.
  - rewrite Ha. exact IH.
Qed.

Lemma components_rev_valid (rel : string) :
  forallb valid_segment (components_rev rel) = true.
Proof.
  unfold components_rev, sep.
  destruct (PyStr.contains "/"%char rel) eqn:Hc.
  - apply forallb_forall. intros x Hx.
    apply filter_In in Hx as [Hin Hkeep]. apply in_rev in Hin.
    pose proof (split_pieces_no_sep "/"%char rel) as Hno.
    rewrite forallb_forall in Hno. specialize (Hno x Hin).
    unfold valid_segment. unfold keep_component in Hkeep.
    rewrite Hkeep, Hno. reflexivity.
  - destruct (keep_component rel) eqn:Hk; [|reflexivity].
    simpl. unfold valid_segment. unfold keep_component in Hk.
    rewrite Hk, Hc. reflexivity.
Qed.

Lemma splitroot_cases (part : string) :
  exists root rel,
    splitroot part = ("", root, rel)
    /\ (root = "" \/ root = "/" \/ root = "//").
Proof.
  unfold splitroot. destruct part as [|c r]; [eauto|].
  destruct (Ascii.eqb c sep); [|eauto].
  destruct (Nat.eqb _ 2); eauto 6.
Qed.

Lemma parse_loop_shape (it parsed : list string) :
  forallb valid_segment parsed = true ->
  exists root parsed',
    parse_loop it parsed = ("", root, parsed')
    /\ forallb valid_segment parsed' = true
    /\ (root = "" \/ root = "/" \/ root = "//").
Proof.
  revert parsed. induction it as [|part it IH]; intros parsed Hp.
  - exists "", parsed. auto.
  - cbn [parse_loop]. destruct (String.eqb part ""); [exact (IH parsed Hp)|].
    destruct (splitroot_cases part) as (root & rel & -> & Hroot).
    assert (Hp' : forallb valid_segment (parsed ++ components_rev rel) = true).
    { rewrite forallb_app, Hp, components_rev_valid. reflexivity. }
    destruct Hroot as [-> | [-> | ->]]; simpl.
    + exact (IH _ Hp').
    + exists "/", (parsed ++ components_rev rel). auto.
    + exists "//", (parsed ++ components_rev rel). auto.
Qed.

Lemma S3Path_shape (args : list string) :
  exists root segs,
    forallb valid_segment segs = true
    /\ ((root = "" /\ S3Path args = mk_path "" "" segs)
        \/ ((root = "/" \/ root = "//")
            /\ S3Path args = mk_path "" root (root :: segs))).
Proof.
  unfold S3Path, _from_parts, parse_parts.
  destruct (parse_loop_shape (rev args) [] eq_refl)
    as (root & parsed & -> & Hp & Hroot).
  exists root, (rev parsed). split; [exact (forallb_rev _ _ Hp)|].
  destruct Hroot as [-> | [-> | ->]]; simpl.
  - left. auto.
  - right. split; [auto|]. rewrite rev_app_distr. reflexivity.
  - right. split; [auto|]. rewrite rev_app_distr. reflexivity.
Qed.

Lemma parse_loop_app_valid (l it parsed : list string) :
  forallb valid_segment l = true ->
  parse_loop (l ++ it) parsed = parse_loop it (parsed ++ l).
Proof.
  revert parsed. induction l as [|x l IH]; intros parsed H; simpl app.
  - rewrite app_nil_r. reflexivity.
  - simpl in H. apply andb_true_iff in H as [Hx Hl].
    cbn [parse_loop].
    rewrite (valid_segment_not_empty x Hx), (valid_segment_splitroot x Hx).
    rewrite (valid_segment_components x Hx). simpl.
    rewrite (IH _ Hl), <- app_assoc. reflexivity.
Qed.

Lemma S3Path_rooted (root : string) (segs : list string) :
  root = "/" \/ root = "//" ->
  forallb valid_segment segs = true ->
  S3Path (root :: segs) = mk_path "" root (root :: segs).
Proof.
  intros Hroot Hsegs. unfold S3Path, _from_parts, parse_parts.
  simpl rev.
  rewrite (parse_loop_app_valid (rev segs) [root] [] (forallb_rev _ _ Hsegs)).
  destruct Hroot as [-> | ->]; simpl;
    rewrite app_nil_r, rev_app_distr, rev_involutive; reflexivity.
Qed.

(** X18: every path that the constructor builds, from any arguments, is
    in normal form: it has no drive, its root is empty, "/" or "//", and
    its parts are the root, if any, followed by non-empty segments other
    than "." that hold no "/".  Building a path from such a path, as
    [parent] and [parents] do, gives the path back. *)
Theorem S3Path_normal_form (args : list string) :
  well_formed (S3Path args) = true
  /\ S3Path_of (S3Path args) = S3Path args.
Proof.
  destruct (S3Path_shape args) as (root & segs & Hsegs & [[-> ->] | [Hroot ->]]).
  - split.
    + unfold well_formed. simpl. exact Hsegs.
    + exact (S3Path_of_valid segs Hsegs).
  - split.
    + unfold well_formed. simpl.
      destruct Hroot as [-> | ->]; simpl; exact Hsegs.
    + exact (S3Path_rooted root segs Hroot Hsegs).
Qed.

(** ** When a path is a file, and when it exists *)

Lemma prefix_append (x y : string) : String.prefix x (x ++ y) = true.
Proof.
  induction x as [|a x IH]; simpl; [destruct y; reflexivity|].
  destruct (Ascii.ascii_dec a a); [exact IH | congruence].
Qed.

Lemma join_app (l1 l2 : list string) :
  l1 <> [] -> l2 <> [] ->
  PyStr.join "/" (l1 ++ l2)
  = (PyStr.join "/" l1 ++ "/" ++ PyStr.join "/" l2)%string.
Proof.
  intros H1 H2. induction l1 as [|x l1 IH]; [congruence|].
  destruct l1 as [|y l1].
  - destruct l2 as [|z l2]; [congruence|]. reflexivity.
  - change ((x :: y :: l1) ++ l2) with (x :: y :: (l1 ++ l2)).
    rewrite !join_cons2.
    change (y :: l1 ++ l2) with ((y :: l1) ++ l2).
    rewrite IH by discriminate. rewrite !append_assoc. reflexivity.
Qed.

Lemma in_keys_under (st : store) (b pre : string) (o : object) :
  In o st -> under b pre o = true -> In (o_key o) (keys_under st b pre).
Proof.
  intros Hin Hu. unfold keys_under. apply in_map, filter_In. auto.
Qed.

Section Stored.

Variables (b : string) (dirs more : list string) (st : store) (o : object).
Hypothesis Hvalid : valid_segments (b :: dirs ++ more) = true.
Hypothesis Hdirs : dirs <> [].
Hypothesis Hmore : more <> [].
Hypothesis Hin : In o st.
Hypothesis Hbucket : o_bucket o = b.
Hypothesis Hkey : o_key o = PyStr.join "/" (dirs ++ more).

Lemma stored_valid_parts :
  valid_segment b = true
  /\ valid_segments (b :: dirs) = true
  /\ valid_segments (dirs ++ more) = true.
Proof.
  simpl in Hvalid. apply andb_true_iff in Hvalid as [Hb Hrest].
  destruct (forallb_app_l _ _ _ Hrest) as [Hd _].
  split; [exact Hb|]. split.
  - simpl. rewrite Hb. exact Hd.
  - destruct dirs as [|d ds]; [congruence|]. exact Hrest.
Qed.

Lemma key_of_dir_prefix :
  String.prefix (key_of (S3Path (b :: dirs))) (PyStr.join "/" (dirs ++ more))
  = true.
Proof.
  destruct stored_valid_parts as (_ & Hv & _).
  unfold key_of. rewrite (key_valid _ Hv). unfold key_of_segments. simpl tl.
  rewrite (join_app dirs more Hdirs Hmore).
  destruct (String.eqb (suffix (S3Path (b :: dirs))) "").
  - replace (PyStr.join "/" dirs ++ "/" ++ PyStr.join "/" more)%string
      with ((PyStr.join "/" dirs ++ "/") ++ PyStr.join "/" more)%string
      by (rewrite append_assoc; reflexivity).
    apply prefix_append.
  - rewrite append_nil_r. apply prefix_append.
Qed.

(** The listing of the directory holds the path of the stored object. *)
Lemma listed_contains :
  In (mk_path "" "" (b :: dirs ++ more)) (listed (S3Path (b :: dirs)) st).
Proof.
  destruct stored_valid_parts as (Hb & Hv & Hm).
  assert (Hbo : bucket_of (S3Path (b :: dirs)) = b).
  { unfold bucket_of. rewrite (bucket_valid _ Hv). reflexivity. }
  unfold listed. rewrite Hbo. apply in_map_iff.
  exists (o_key o). split.
  - rewrite Hkey. apply (S3Path_joined [b] (dirs ++ more)); [|exact Hm].
    simpl. rewrite Hb. reflexivity.
  - apply in_keys_under; [exact Hin|]. unfold under.
    rewrite Hbucket, String.eqb_refl, Hkey. exact key_of_dir_prefix.
Qed.

End Stored.

Lemma is_file_holds (b : string) (dirs : list string) (name : string)
  (st : store) (o : object) :
  valid_segments (b :: dirs ++ [name]) = true ->
  dirs <> [] ->
  suffix (S3Path (b :: dirs ++ [name])) <> "" ->
  In o st -> o_bucket o = b -> o_key o = PyStr.join "/" (dirs ++ [name]) ->
  res (is_file (S3Path (b :: dirs ++ [name])) st) = Ok true.
Proof.
  intros Hv Hdirs Hsuf Hin Hb Hk.
  pose proof (listed_contains b dirs [name] st o Hv Hdirs
                ltac:(discriminate) Hin Hb Hk) as Hl.
  rewrite is_file_run. apply String.eqb_neq in Hsuf. rewrite Hsuf.
  change (b :: dirs ++ [name]) with ((b :: dirs) ++ [name]).
  rewrite (parent_S3Path (b :: dirs) name Hv). simpl. f_equal.
  apply existsb_exists. eexists. split; [exact Hl|].
  rewrite (S3Path_valid _ (valid_segments_forallb _ Hv)). apply eqb_refl.
Qed.

Lemma exists_holds (b : string) (dirs : list string) (d : string)
  (rest : list string) (st : store) (o : object) :
  valid_segments (b :: dirs ++ d :: rest) = true ->
  dirs <> [] -> rest <> [] ->
  In o st -> o_bucket o = b -> o_key o = PyStr.join "/" (dirs ++ d :: rest) ->
  res (exists_ (S3Path (b :: dirs ++ [d])) st) = Ok true.
Proof.
  intros Hv Hdirs Hrest Hin Hb Hk.
  pose proof (listed_contains b dirs (d :: rest) st o Hv Hdirs
                ltac:(discriminate) Hin Hb Hk) as Hl.
  pose proof (valid_segments_forallb _ Hv) as Hall.
  assert (Hsplit : b :: dirs ++ d :: rest = (b :: dirs ++ [d]) ++ rest).
  { simpl. rewrite <- app_assoc. reflexivity. }
  assert (Hp : valid_segments ((b :: dirs) ++ [d]) = true).
  { rewrite Hsplit in Hall. destruct (forallb_app_l _ _ _ Hall) as [Hp _].
    exact Hp. }
  pose proof (parent_S3Path (b :: dirs) d Hp) as Hparent.
  simpl app in Hparent. rewrite exists_run, Hparent. simpl. f_equal.
  apply existsb_exists. exists (mk_path "" "" (b :: dirs ++ [d])). split.
  - apply in_flat_map. eexists. split; [exact Hl|].
    rewrite (parents_valid _ Hall). apply in_map_iff.
    exists (length rest - 1). split.
    + f_equal. rewrite Hsplit. rewrite length_app.
      assert (0 < length rest) by (destruct rest; [congruence | simpl; lia]).
      replace (length (b :: dirs ++ [d]) + length rest - (length rest - 1) - 1)
        with (length (b :: dirs ++ [d])) by lia.
      rewrite firstn_app_le by lia. apply firstn_all.
    + apply in_seq. rewrite Hsplit, length_app.
      destruct rest; [congruence | simpl; lia].
  - pose proof (S3Path_valid _ (valid_segments_forallb _ Hp)) as Hs.
    simpl app in Hs. rewrite Hs. apply eqb_refl.
Qed.

(** X19: a valid path with a suffix and at least one directory under
    the bucket is a file whenever the store holds an object in the bucket
    of the path at the key of the path, the segments under the bucket
    joined by "/". *)
Theorem stored_object_is_file (b : string) (dirs : list string) (name : string)
  (st : store) (o : object) :
  valid_segments (b :: dirs ++ [name]) = true ->
  dirs <> [] ->
  suffix (S3Path (b :: dirs ++ [name])) <> "" ->
  In o st -> o_bucket o = b -> o_key o = PyStr.join "/" (dirs ++ [name]) ->
  res (is_file (S3Path (b :: dirs ++ [name])) st) = Ok true.
Proof. exact (is_file_holds b dirs name st o). Qed.

Lemma stored_object_is_file_witness :
  res (is_file (S3Path ["bucket"; "dir"; "a.txt"])
         [mk_object "bucket" "other/b.txt" []; mk_object "bucket" "dir/a.txt" []])
  = Ok true.
Proof.
  apply (stored_object_is_file "bucket" ["dir"] "a.txt"
           [mk_object "bucket" "other/b.txt" []; mk_object "bucket" "dir/a.txt" []]
           (mk_object "bucket" "dir/a.txt" [])); try reflexivity.
  - discriminate.
  - discriminate.
  - right. left. reflexivity.
Defined.

(** X20: a valid path at least two segments under the bucket exists
    whenever the store holds an object of the bucket whose key is the
    segments of the path under the bucket followed by further segments,
    all joined by "/": a directory with an object somewhere below it
    exists. *)
Theorem directory_with_object_exists (b : string) (dirs : list string)
  (d : string) (rest : list string) (st : store) (o : object) :
  valid_segments (b :: dirs ++ d :: rest) = true ->
  dirs <> [] -> rest <> [] ->
  In o st -> o_bucket o = b -> o_key o = PyStr.join "/" (dirs ++ d :: rest) ->
  res (exists_ (S3Path (b :: dirs ++ [d])) st) = Ok true.
Proof. exact (exists_holds b dirs d rest st o). Qed.

Lemma directory_with_object_exists_witness :
  res (exists_ (S3Path ["bucket"; "a"; "dir"])
         [mk_object "bucket" "a/dir/sub/x.txt" []]) = Ok true.
Proof.
  apply (directory_with_object_exists "bucket" ["a"] "dir" ["sub"; "x.txt"]
           [mk_object "bucket" "a/dir/sub/x.txt" []]
           (mk_object "bucket" "a/dir/sub/x.txt" [])); try reflexivity.
  - discriminate.
  - discriminate.
  - left. reflexivity.
Defined.

Lemma in_put (st : store) (b k : string) (body : bytes) :
  In (mk_object b k body) (put st b k body).
Proof. unfold put. apply in_or_app. right. left. reflexivity. Qed.

Section Written.

Variables (b : string) (dirs : list string) (d name : string).
Variables (data : bytes) (st : store).
Hypothesis Hvalid : valid_segments (b :: dirs ++ [d; name]) = true.
Hypothesis Hdirs : dirs <> [].
Hypothesis Hsuffix : suffix (S3Path (b :: dirs ++ [d; name])) <> "".

Lemma written_store :
  final (with_open (S3Path (b :: dirs ++ [d; name])) "wb" (write_bytes data) st)
  = put st b (PyStr.join "/" (dirs ++ [d; name])) data.
Proof.
  rewrite (with_open_write _ "wb" (write_bytes data) st (or_introl eq_refl)).
  simpl. rewrite read_written.
  unfold bucket_of, key_of.
  rewrite (bucket_valid _ Hvalid), (key_valid _ Hvalid).
  unfold key_of_segments. apply String.eqb_neq in Hsuffix. rewrite Hsuffix.
  simpl hd. simpl tl. rewrite append_nil_r. reflexivity.
Qed.

Lemma written_is_file :
  res (is_file (S3Path (b :: dirs ++ [d; name]))
         (put st b (PyStr.join "/" (dirs ++ [d; name])) data)) = Ok true.
Proof.
  assert (Hshape : b :: dirs ++ [d; name] = b :: (dirs ++ [d]) ++ [name]).
  { rewrite <- app_assoc. reflexivity. }
  revert Hvalid Hsuffix. rewrite Hshape. intros Hv Hs.
  apply (is_file_holds b (dirs ++ [d]) name _
           (mk_object b (PyStr.join "/" (dirs ++ [d; name])) data) Hv).
  - destruct dirs; discriminate.
  - exact Hs.
  - apply in_put.
  - reflexivity.
  - simpl. rewrite <- app_assoc. reflexivity.
Qed.

End Written.

(** X21: writing makes the path a file and its directory exist: after
    bytes are written through [open] in mode "wb" to a valid path with a
    suffix that lies at least two directories under the bucket, [is_file]
    holds of the path and [exists] holds of its parent. *)
Theorem write_makes_file (b : string) (dirs : list string) (d name : string)
  (data : bytes) (st : store) :
  let p := S3Path (b :: dirs ++ [d; name]) in
  valid_segments (b :: dirs ++ [d; name]) = true ->
  dirs <> [] ->
  suffix p <> "" ->
  res (is_file p (final (with_open p "wb" (write_bytes data) st))) = Ok true
  /\ res (exists_ (parent p) (final (with_open p "wb" (write_bytes data) st)))
     = Ok true.
Proof.
  intros p Hv Hdirs Hsuf. unfold p.
  rewrite (written_store b dirs d name data st Hv Hsuf).
  split.
  - exact (written_is_file b dirs d name data st Hv Hdirs Hsuf).
  - assert (Hshape : b :: dirs ++ [d; name] = (b :: dirs ++ [d]) ++ [name]).
    { simpl. rewrite <- app_assoc. reflexivity. }
    assert (Hv' : valid_segments ((b :: dirs ++ [d]) ++ [name]) = true).
    { rewrite <- Hshape. exact Hv. }
    rewrite Hshape, (parent_S3Path _ _ Hv').
    apply (exists_holds b dirs d [name] _
             (mk_object b (PyStr.join "/" (dirs ++ [d; name])) data) Hv Hdirs);
      try reflexivity.
    + discriminate.
    + apply in_put.
Qed.

Lemma write_makes_file_witness :
  res (is_file (S3Path ["bucket"; "a"; "dir"; "x.txt"])
         (final (with_open (S3Path ["bucket"; "a"; "dir"; "x.txt"]) "wb"
                   (write_bytes [Byte.x01]) []))) = Ok true
  /\ res (exists_ (parent (S3Path ["bucket"; "a"; "dir"; "x.txt"]))
            (final (with_open (S3Path ["bucket"; "a"; "dir"; "x.txt"]) "wb"
                      (write_bytes [Byte.x01]) []))) = Ok true.
Proof.
  apply (write_makes_file "bucket" ["a"] "dir" "x.txt" [Byte.x01] []).
  - reflexivity.
  - discriminate.
  - discriminate.
Defined.

(** X22: what was written can be unlinked: after bytes are written
    through [open] in mode "wb" to such a path, [unlink] ends normally,
    and a later [open] in mode "rb" raises the store's not-found error. *)
Theorem write_then_unlink (b : string) (dirs : list string) (d name : string)
  (data : bytes) (st : store) :
  let p := S3Path (b :: dirs ++ [d; name]) in
  valid_segments (b :: dirs ++ [d; name]) = true ->
  dirs <> [] ->
  suffix p <> "" ->
  let written := final (with_open p "wb" (write_bytes data) st) in
  res (unlink p written) = Ok tt
  /\ res (with_open p "rb" read_body (final (unlink p written))) = Err NoSuchKey.
Proof.
  intros p Hv Hdirs Hsuf written. unfold written, p.
  rewrite (written_store b dirs d name data st Hv Hsuf).
  pose proof (written_is_file b dirs d name data st Hv Hdirs Hsuf) as Hf.
  destruct (is_file_shape (S3Path (b :: dirs ++ [d; name]))
              (put st b (PyStr.join "/" (dirs ++ [d; name])) data))
    as (f & tr & Hp & _).
  rewrite Hp in Hf. simpl in Hf. injection Hf as ->.
  rewrite (unlink_run _ _ true tr Hp). simpl. split; [reflexivity|].
  rewrite with_open_read, lookup_remove_under. reflexivity.
Qed.

Lemma write_then_unlink_witness :
  res (unlink (S3Path ["bucket"; "a"; "dir"; "x.txt"])
         (final (with_open (S3Path ["bucket"; "a"; "dir"; "x.txt"]) "wb"
                   (write_bytes [Byte.x01]) []))) = Ok tt.
Proof.
  apply (write_then_unlink "bucket" ["a"] "dir" "x.txt" [Byte.x01] []).
  - reflexivity.
  - discriminate.
  - discriminate.
Defined.
